(** * ionping: ICMP liveness sweeper (src/ionping.py)

    A shallow embedding of the packet codec ([ICMP_ECHO],
    [validate_echo_response]), of the probe ([send_ping]), of the per-subnet
    scan ([subnet_queue]), of the writer thread ([file_writer]) and of the
    thread-handling part of [main], followed by the properties of the
    specification that were checked against them.

    Conventions.
    - Python [int] is [Z]; [bytes] is [list byte]; [str] is [string].
    - A call that may raise returns a [result]; the exception classes the
      program can meet are the constructors of [exn].
    - Code that prints, enqueues or talks to the socket is a function
      [World -> result A * World]. *)

From Stdlib Require Import String Ascii Strings.Byte DecimalString Decimal.
From Stdlib Require Import ZArith QArith Bool Lia List.
From Stdlib Require DecimalNat.
Import ListNotations.
Open Scope Z_scope.

(* ================================================================= *)
(** ** Exceptions and results *)

Inductive exn : Type :=
| IndexError (index : nat)       (* sequence index out of range; carries the index *)
| struct_error                   (* struct.error *)
| socket_timeout                 (* socket.timeout *)
| OSError (what : string)        (* any other socket failure *)
| ValueError
| KeyboardInterrupt
| SystemExit (status : Z).

Inductive result (A : Type) : Type :=
| Ok (a : A)
| Raise (e : exn).
Arguments Ok {A} a.
Arguments Raise {A} e.

Definition rbind {A B} (r : result A) (k : A -> result B) : result B :=
  match r with
  | Ok a => k a
  | Raise e => Raise e
  end.

Declare Scope result_scope.
Delimit Scope result_scope with res.
Notation "'let?' x ':=' r 'in' k" := (rbind r (fun x => k))
  (at level 10, x pattern, r at level 100, k at level 200) : result_scope.

(* ================================================================= *)
(** ** Bytes and [struct] with the format "!BBHHH" *)

Definition bytes := list byte.

Definition byte_val (b : byte) : Z := Z.of_N (Byte.to_N b).

Definition byte_of_Z (v : Z) : option byte :=
  if 0 <=? v then Byte.of_N (Z.to_N v) else None.

(** [payload[i]] on a [bytes] object, for a non-negative index. *)
Definition getitem (b : bytes) (i : nat) : result Z :=
  match nth_error b i with
  | Some x => Ok (byte_val x)
  | None => Raise (IndexError i)
  end.

(** [range(start, ..., 2)] with [count] elements. *)
Fixpoint range2 (start count : nat) : list nat :=
  match count with
  | O => []
  | S k => start :: range2 (start + 2) k
  end.

(** [range(0, n, 2)]: the even numbers below [n]. *)
Definition range_0_n_2 (n : nat) : list nat := range2 0 (Nat.div2 (n + 1)).

(** Format "B": an unsigned byte, [struct.error] outside 0..255. *)
Definition pack_B (v : Z) : result bytes :=
  match byte_of_Z v with
  | Some b => Ok [b]
  | None => Raise struct_error
  end.

(** Format "!H": an unsigned 16-bit integer, big-endian, [struct.error]
    outside 0..65535. *)
Definition pack_H (v : Z) : result bytes :=
  if (0 <=? v) && (v <=? 65535) then
    match byte_of_Z (Z.shiftr v 8), byte_of_Z (Z.land v 255) with
    | Some hi, Some lo => Ok [hi; lo]
    | _, _ => Raise struct_error
    end
  else Raise struct_error.

Definition unpack_H (hi lo : byte) : Z :=
  Z.lor (Z.shiftl (byte_val hi) 8) (byte_val lo).

(** [struct.pack("!BBHHH", a, b, c, d, e)] *)
Definition struct_pack (a b c d e : Z) : result bytes :=
  (let? pa := pack_B a in
   let? pb := pack_B b in
   let? pc := pack_H c in
   let? pd := pack_H d in
   let? pe := pack_H e in
   Ok (pa ++ pb ++ pc ++ pd ++ pe))%res.

(** [struct.unpack("!BBHHH", buf)]: the buffer must hold exactly 8 bytes. *)
Definition struct_unpack (buf : bytes) : result (Z * Z * Z * Z * Z) :=
  match buf with
  | [b0; b1; b2; b3; b4; b5; b6; b7] =>
      Ok (byte_val b0, byte_val b1, unpack_H b2 b3, unpack_H b4 b5, unpack_H b6 b7)
  | _ => Raise struct_error
  end.

(* ================================================================= *)
(** ** ICMP_ECHO *)

Definition _ECHO_REQ : Z := 8.

Record ICMP_ECHO_obj : Type := mkICMP_ECHO {
  icmp_id : Z;
  sequence : Z;
  data : bytes;
  checksum : Z;
  header : bytes;
  payload : bytes
}.

(** One iteration of the checksum loop, given the two bytes read. *)
Definition checksum_step (checksum hi lo : Z) : Z :=
  let word := Z.shiftl hi 8 + lo in
  let checksum := checksum + word in
  Z.land checksum 0xffff + Z.shiftr checksum 16.

(** [for i in <indices>: word = (payload[i] << 8) + payload[i + 1]; ...] *)
Fixpoint checksum_loop (payload : bytes) (indices : list nat) (checksum : Z)
  : result Z :=
  match indices with
  | [] => Ok checksum
  | i :: rest =>
      (let? hi := getitem payload i in
       let? lo := getitem payload (i + 1) in
       checksum_loop payload rest (checksum_step checksum hi lo))%res
  end.

(** [ICMP_ECHO.__init__(self, icmp_id, sequence, data)] *)
Definition ICMP_ECHO (icmp_id sequence : Z) (data : bytes) : result ICMP_ECHO_obj :=
  (let? icmp_header := struct_pack _ECHO_REQ 0 0 icmp_id sequence in
   let payload := icmp_header ++ data in
   let? checksum := checksum_loop payload (range_0_n_2 (length payload)) 0 in
   let checksum := Z.land (Z.lnot checksum) 0xffff in
   let? header := struct_pack _ECHO_REQ 0 checksum icmp_id sequence in
   Ok (mkICMP_ECHO icmp_id sequence data checksum header (header ++ data)))%res.

(** [validate_echo_response(icmp_response, icmp_id, address)] *)
Definition validate_echo_response {Addr : Type}
  (icmp_response : bytes) (icmp_id : Z) (address : Addr) : result bool :=
  (let? (type, code, checksum, id, seq) := struct_unpack icmp_response in
   if (type =? 0) && (code =? 0) && (id =? icmp_id) then Ok true else Ok false)%res.

(* ================================================================= *)
(** ** An independent Internet-checksum verifier

    Written from the definition of the checksum fold, not from the loop of
    [ICMP_ECHO]: the buffer is cut into big-endian 16-bit words, the words are
    added up as unbounded integers, and the carries above bit 15 are then
    folded back in until none is left. *)

Fixpoint be_words (b : bytes) : list Z :=
  match b with
  | hi :: lo :: rest => (256 * byte_val hi + byte_val lo) :: be_words rest
  | [hi] => [256 * byte_val hi]
  | [] => []
  end.

Definition zsum (l : list Z) : Z := fold_right Z.add 0 l.

Fixpoint fold_carries (fuel : nat) (x : Z) : Z :=
  match fuel with
  | O => x
  | S f => if x <? 65536 then x else fold_carries f (x mod 65536 + x / 65536)
  end.

Definition ones_complement_sum (b : bytes) : Z :=
  fold_carries (length b) (zsum (be_words b)).

(* ================================================================= *)
(** ** Strings *)

Open Scope string_scope.
Open Scope Z_scope.

(** [s.split(sep)] for a one-character separator. *)
Fixpoint split (sep : ascii) (s : string) : list string :=
  match s with
  | EmptyString => [EmptyString]
  | String c rest =>
      if Ascii.eqb c sep then EmptyString :: split sep rest
      else match split sep rest with
           | [] => [String c EmptyString]
           | h :: t => String c h :: t
           end
  end.

(** [c in s] for a one-character [c]. *)
Fixpoint contains (c : ascii) (s : string) : bool :=
  match s with
  | EmptyString => false
  | String d rest => Ascii.eqb d c || contains c rest
  end.

(** [str(i)] for a natural number. *)
Definition str_of_nat (i : nat) : string := NilEmpty.string_of_uint (Nat.to_uint i).

(** The two kinds of Python values met by the comparison in [subnet_queue]:
    [==] between a [str] and a [list] is [False]. *)
Inductive pyval : Type :=
| PyStr (s : string)
| PyList (l : list string).

Definition py_eq (a b : pyval) : bool :=
  match a, b with
  | PyStr s, PyStr t => String.eqb s t
  | PyList l, PyList m =>
      if list_eq_dec string_dec l m then true else false
  | _, _ => false
  end.

(** [b[lo:hi]] for non-negative bounds. *)
Definition slice {A} (l : list A) (lo hi : nat) : list A :=
  firstn (hi - lo) (skipn lo l).

(* ================================================================= *)
(** ** The world: network script, module globals, standard output

    What the network does while one address is probed is given by a script:
    whether [socket.socket] and [sendto] raise, what [time.time()] returns
    before the receive loop, and what the successive [recvfrom] calls do.
    Once the scripted events are used up nothing more arrives: [recvfrom]
    times out and the window of [_default_timeout] seconds has passed. *)

Inductive recv_event : Type :=
| Datagram (packet : bytes) (addr : string)
    (* recvfrom returns (packet, addr); addr is kept as its str() *)
| RecvRaises (e : exn) (clock : Q).
    (* recvfrom raises e; clock is what the next time.time() returns *)

Record sock_script : Type := mkScript {
  on_socket : option exn;
  on_sendto : option exn;
  start_clock : Q;
  recv_events : list recv_event
}.

Inductive sock_call : Type :=
| CSocket
| CSetTimeout (seconds : Q)
| CSendTo (packet : bytes) (host : string) (port : Z)
| CRecvFrom (bufsize : Z).

(** The lines the program prints. [render] gives the text of each. *)
Inductive message : Type :=
| MsgScanning (subnet : string)
| MsgLive (subnet : string)
| MsgNotLive (subnet : string)
| MsgReceived (addr : string)
| MsgUnexpected (addr : string)
| MsgBytes (b : bytes)
| MsgTimeout (address : string)
| MsgBadTimeout
| MsgBadThreads
| MsgTooManyThreads
| MsgFinished.

Definition render (m : message) : string :=
  match m with
  | MsgScanning subnet => "[i] Scanning Subnet: " ++ subnet
  | MsgLive subnet => "[+] Subnet " ++ subnet ++ "/24 is live"
  | MsgNotLive subnet => "[-] Subnet " ++ subnet ++ "/24 is not live"
  | MsgReceived addr => "[+] Received ICMP response from " ++ addr ++ "/n"
  | MsgUnexpected addr => "[!] Received Unexpected response from " ++ addr ++ "/n"
  | MsgBytes b => "<bytes>"
  | MsgTimeout address => "[-]Timeout waiting for ICMP response from " ++ address ++ "/n"
  | MsgBadTimeout => "[e] Specified timeout must be at least 1 second"
  | MsgBadThreads => "[e] must use at least 1 thread"
  | MsgTooManyThreads => "[e] thread size cannot be bigger than 4! (Can cause serious issues)"
  | MsgFinished => "[i] finished execution"
  end.

Record World : Type := mkWorld {
  net : string -> sock_script;     (* the network, per probed address *)
  timeout : Q;                     (* the module global [timeout] *)
  writer_queue : list string;      (* the module global [writer_queue], oldest first *)
  out_file : list string;          (* what the writer has put in the output file *)
  stdout : list message;
  sock_calls : list sock_call      (* every socket call made so far *)
}.

Definition _default_timeout : Q := 2.
Definition _max_threads : Z := 4.

(** The state and exception monad of the effectful code. *)
Definition M (A : Type) : Type := World -> result A * World.

Definition ret {A} (a : A) : M A := fun w => (Ok a, w).
Definition raise {A} (e : exn) : M A := fun w => (Raise e, w).
Definition bind {A B} (m : M A) (k : A -> M B) : M B :=
  fun w => match m w with
           | (Ok a, w') => k a w'
           | (Raise e, w') => (Raise e, w')
           end.
Definition lift {A} (r : result A) : M A := fun w => (r, w).

(** [try: body  except <class>: handler], the class given as a test. *)
Definition try_except {A} (body : M A) (catches : exn -> bool) (handler : M A) : M A :=
  fun w => match body w with
           | (Raise e, w') => if catches e then handler w' else (Raise e, w')
           | ok => ok
           end.

Declare Scope M_scope.
Delimit Scope M_scope with M.
Notation "x <- m ;; k" := (bind m (fun x => k))
  (at level 61, m at next level, right associativity) : M_scope.
Notation "m ;; k" := (bind m (fun _ => k))
  (at level 61, right associativity) : M_scope.

Definition print (m : message) : M unit :=
  fun w => (Ok tt, mkWorld (net w) (timeout w) (writer_queue w) (out_file w)
                           (stdout w ++ [m]) (sock_calls w)).

Definition log_call (c : sock_call) : M unit :=
  fun w => (Ok tt, mkWorld (net w) (timeout w) (writer_queue w) (out_file w)
                           (stdout w) (sock_calls w ++ [c])).

Definition writer_queue_put (line : string) : M unit :=
  fun w => (Ok tt, mkWorld (net w) (timeout w) (writer_queue w ++ [line]) (out_file w)
                           (stdout w) (sock_calls w)).

Definition set_timeout (t : Q) : M unit :=
  fun w => (Ok tt, mkWorld (net w) t (writer_queue w) (out_file w)
                           (stdout w) (sock_calls w)).

Definition script_of (address : string) : M sock_script :=
  fun w => (Ok (net w address), w).

Definition may_raise (o : option exn) : M unit :=
  match o with
  | Some e => raise e
  | None => ret tt
  end.

Definition is_socket_timeout (e : exn) : bool :=
  match e with socket_timeout => true | _ => false end.

Definition is_KeyboardInterrupt (e : exn) : bool :=
  match e with KeyboardInterrupt => true | _ => false end.

(* ================================================================= *)
(** ** send_ping *)

Open Scope M_scope.

(** The [while True] loop of [send_ping], one [recvfrom] per iteration. *)
Fixpoint recv_loop (address : string) (echo_request : ICMP_ECHO_obj)
  (start_time : Q) (events : list recv_event) : M bool :=
  match events with
  | [] =>
      log_call (CRecvFrom 1024) ;;
      print (MsgTimeout address) ;;
      ret false
  | Datagram packet addr :: _ =>
      log_call (CRecvFrom 1024) ;;
      let icmp_header := slice packet 20 28 in
      ok <- lift (validate_echo_response icmp_header (icmp_id echo_request) addr) ;;
      if ok : bool then
        print (MsgReceived addr) ;;
        ret true
      else
        print (MsgUnexpected addr) ;;
        print (MsgBytes icmp_header) ;;
        ret false
  | RecvRaises e clock :: later =>
      log_call (CRecvFrom 1024) ;;
      if is_socket_timeout e then
        let elapsed_time := (clock - start_time)%Q in
        if Qle_bool _default_timeout elapsed_time then
          print (MsgTimeout address) ;;
          ret false
        else recv_loop address echo_request start_time later
      else raise e
  end.

(** [send_ping(address)] *)
Definition send_ping (address : string) : M bool :=
  script <- script_of address ;;
  log_call CSocket ;;
  may_raise (on_socket script) ;;
  log_call (CSetTimeout _default_timeout) ;;
  echo_request <- lift (ICMP_ECHO 0 0 []) ;;
  log_call (CSendTo (payload echo_request) address 0) ;;
  may_raise (on_sendto script) ;;
  let start_time := start_clock script in
  recv_loop address echo_request start_time (recv_events script).

(* ================================================================= *)
(** ** subnet_queue *)

Definition default_suffix_list : list string :=
  map (fun i => "." ++ str_of_nat i)%string (seq 0 256).

(** ['.'.join(subnet.split(".")[0:-1]) + suffix] *)
Definition candidate (subnet suffix : string) : string :=
  (String.concat "." (removelast (split "." subnet)) ++ suffix)%string.

(** The [for suffix in suffix_list] loop; [remaining] is what is left to
    iterate over, [suffix_list] the whole list. *)
Fixpoint scan_loop (subnet : string) (suffix_list remaining : list string) : M unit :=
  match remaining with
  | [] => ret tt
  | suffix :: rest =>
      let address := candidate subnet suffix in
      live <- send_ping address ;;
      if live : bool then
        print (MsgLive subnet) ;;
        writer_queue_put (subnet ++ "/24" ++ String "010" "")%string
      else
        (if py_eq (PyStr suffix) (PyList (removelast suffix_list))
         then print (MsgNotLive subnet)
         else ret tt) ;;
        scan_loop subnet suffix_list rest
  end.

(** [subnet_queue(subnet, suffix_list)] *)
Definition subnet_queue (subnet : string) (suffix_list : option (list string)) : M unit :=
  let suffix_list :=
    match suffix_list with
    | None => default_suffix_list
    | Some l => l
    end in
  print (MsgScanning subnet) ;;
  try_except
    (let subnet := if contains "/" subnet then hd ""%string (split "/" subnet) else subnet in
     scan_loop subnet suffix_list suffix_list)
    is_KeyboardInterrupt
    (raise (SystemExit 1)).

(* ================================================================= *)
(** ** main: argument validation and thread handling

    The command line is taken as already parsed ([args]) and the input file
    as already read into [subnet_list]. *)

Record args : Type := mkArgs {
  args_timeout : Z;
  args_threads : Z
}.

(** [executor.map(f, subnet_list)], where [f] applies [subnet_queue] to a pair, followed by the
    executor's shutdown: every task is run; what a task returns or raises is
    kept in its future, and the iterator that would hand it back is never
    consumed.  The tasks are taken one after the other, as a pool of one
    worker runs them. *)
Fixpoint executor_map (subnet_list : list (string * list string)) : M unit :=
  match subnet_list with
  | [] => ret tt
  | (subnet, host_range) :: rest =>
      fun w => let (_, w') := subnet_queue subnet (Some host_range) w in
               executor_map rest w'
  end.

(** [writer_queue.join()]: returns once the writer thread has taken every
    line from the queue, written it and marked it done. *)
Definition writer_queue_join : M unit :=
  fun w => (Ok tt, mkWorld (net w) (timeout w) [] (out_file w ++ writer_queue w)
                           (stdout w) (sock_calls w)).

Definition main (a : args) (subnet_list : list (string * list string)) : M unit :=
  if args_timeout a <? 1 then print MsgBadTimeout ;; raise (SystemExit 1)
  else if args_threads a <? 1 then print MsgBadThreads ;; raise (SystemExit 1)
  else if args_threads a >? _max_threads then print MsgTooManyThreads ;; raise (SystemExit 1)
  else
    set_timeout (inject_Z (args_timeout a)) ;;
    let workers := Z.min (args_threads a) (Z.of_nat (length subnet_list)) in
    (if workers <=? 0 then raise ValueError else ret tt) ;;
    executor_map subnet_list ;;
    writer_queue_join ;;
    print MsgFinished.

(** The exit status of the process: [main()] under
    [except KeyboardInterrupt: sys.exit(1)]; an exception that nothing
    catches ends the interpreter with status 1. *)
Definition exit_status (r : result unit) : Z :=
  match r with
  | Ok _ => 0
  | Raise (SystemExit status) => status
  | Raise _ => 1
  end.

Definition run (a : args) (subnet_list : list (string * list string)) (w : World)
  : Z * World :=
  let (r, w') := main a subnet_list w in (exit_status r, w').

Close Scope M_scope.

(** Worlds to run examples in. *)
Definition silent : sock_script := mkScript None None 0 [].
Definition world0 (network : string -> sock_script) : World :=
  mkWorld network _default_timeout [] [] [] [].

(* ================================================================= *)
(** ** The writer thread and the shutdown of main, as a transition system

    [file_writer] runs in its own thread next to the workers and to the main
    thread, so its guarantees are stated over the interleavings of the three.
    The writer is at one of its four statements; the main thread is about to
    create the executor, inside the executor block (workers may still
    enqueue), at [writer_queue.join()], past it, or out of the
    [with open(...)] block.  A KeyboardInterrupt can reach the main thread at
    any of these points while it is inside the [with] block: the block is then
    left at once, which closes the handle, and the handler at the bottom of
    the file calls [sys.exit(1)]; worker threads that were running go on to
    the end of their tasks. *)

Module Writer.

Inductive writer_pc : Type :=
| WGet                        (* output = writer_queue.get() *)
| WWrite (output : string)    (* file_handle.write(output) *)
| WFlush                      (* file_handle.flush() *)
| WTaskDone                   (* writer_queue.task_done() *)
| WDead.                      (* the thread ended on an exception *)

Inductive main_pc : Type :=
| MStart                      (* writer started, executor not yet created *)
| MPool                       (* inside the ThreadPoolExecutor block *)
| MJoin                       (* at writer_queue.join() *)
| MJoined                     (* join returned, still inside with open(...) *)
| MClosed                     (* the with block was left: handle closed *)
| MAborted (workers_running : bool).
                              (* KeyboardInterrupt in the main thread: the with
                                 block was left and the handle closed; workers
                                 may still be at work *)

Record state : Type := mkState {
  queue : list string;        (* lines in writer_queue *)
  unfinished_tasks : nat;     (* the counter that put, task_done and join use *)
  buffer : list string;       (* written to the handle, not flushed yet *)
  disk : list string;         (* flushed to the file *)
  handle_open : bool;
  wpc : writer_pc;
  mpc : main_pc;
  enqueued : list string      (* history: every line ever put, in order *)
}.

Definition init : state := mkState [] 0 [] [] true WGet MStart [].

Inductive step : state -> state -> Prop :=
| step_pool_start q u b d w e :
    (* ThreadPoolExecutor(workers) with workers >= 1 *)
    step (mkState q u b d true w MStart e) (mkState q u b d true w MPool e)
| step_pool_refused q u b d w e :
    (* ThreadPoolExecutor(0) raises ValueError: the with block is left *)
    step (mkState q u b d true w MStart e) (mkState q u [] (d ++ b) false w MClosed e)
| step_put q u b d w e line :
    (* a worker: writer_queue.put(line) *)
    step (mkState q u b d true w MPool e)
         (mkState (q ++ [line]) (S u) b d true w MPool (e ++ [line]))
| step_pool_done q u b d w e :
    (* the executor block is left: every worker has finished *)
    step (mkState q u b d true w MPool e) (mkState q u b d true w MJoin e)
| step_get line q u b d o m e :
    step (mkState (line :: q) u b d o WGet m e) (mkState q u b d o (WWrite line) m e)
| step_write line q u b d m e :
    step (mkState q u b d true (WWrite line) m e)
         (mkState q u (b ++ [line]) d true WFlush m e)
| step_write_raises line q u b d o m e :
    (* closed handle or I/O error *)
    step (mkState q u b d o (WWrite line) m e) (mkState q u b d o WDead m e)
| step_flush q u b d m e :
    step (mkState q u b d true WFlush m e) (mkState q u [] (d ++ b) true WTaskDone m e)
| step_flush_raises q u b d o m e :
    step (mkState q u b d o WFlush m e) (mkState q u b d o WDead m e)
| step_task_done q u b d o m e :
    step (mkState q (S u) b d o WTaskDone m e) (mkState q u b d o WGet m e)
| step_join q b d w e :
    (* join returns only when unfinished_tasks is zero *)
    step (mkState q 0 b d true w MJoin e) (mkState q 0 b d true w MJoined e)
| step_close q u b d w e :
    (* leaving with open(...): close() flushes what is buffered *)
    step (mkState q u b d true w MJoined e) (mkState q u [] (d ++ b) false w MClosed e)
| step_interrupt_pool q u b d w e :
    (* KeyboardInterrupt while the executor block is being left: the handle
       is closed, the workers still run *)
    step (mkState q u b d true w MPool e)
         (mkState q u [] (d ++ b) false w (MAborted true) e)
| step_interrupt q u b d w m e :
    (* KeyboardInterrupt before the pool, at join, or right after it *)
    m = MStart \/ m = MJoin \/ m = MJoined ->
    step (mkState q u b d true w m e)
         (mkState q u [] (d ++ b) false w (MAborted false) e)
| step_put_aborted q u b d w e line :
    (* a worker that is still running: writer_queue.put(line) *)
    step (mkState q u b d false w (MAborted true) e)
         (mkState (q ++ [line]) (S u) b d false w (MAborted true) (e ++ [line]))
| step_workers_done q u b d w e :
    step (mkState q u b d false w (MAborted true) e)
         (mkState q u b d false w (MAborted false) e).

Inductive reachable : state -> Prop :=
| reach_init : reachable init
| reach_step s s' : reachable s -> step s s' -> reachable s'.

End Writer.

(* ================================================================= *)
(** ** Reading aids for the statements below *)

(** The loop body as a function of the 16-bit word read. *)
Definition add_word (checksum word : Z) : Z :=
  (checksum + word) mod 65536 + (checksum + word) / 65536.

(** [w] after more lines were printed and more socket calls made. *)
Definition extend (w : World) (msgs : list message) (calls : list sock_call) : World :=
  mkWorld (net w) (timeout w) (writer_queue w) (out_file w)
          (stdout w ++ msgs)%list (sock_calls w ++ calls)%list.

(** What a probe of [address] returns or raises on a given network; by
    [send_ping_outcome] below this is what [send_ping] does in every world
    with that network. *)
Definition probe_outcome (network : string -> sock_script) (address : string)
  : result bool :=
  fst (send_ping address (world0 network)).

(** The hosts that datagrams were sent to, in order. *)
Fixpoint sent_to (calls : list sock_call) : list string :=
  match calls with
  | [] => []
  | CSendTo _ host _ :: rest => host :: sent_to rest
  | _ :: rest => sent_to rest
  end.

(** The timeouts that were set on sockets, in order. *)
Fixpoint timeouts_set (calls : list sock_call) : list Q :=
  match calls with
  | [] => []
  | CSetTimeout seconds :: rest => seconds :: timeouts_set rest
  | _ :: rest => timeouts_set rest
  end.

(** The packets that were sent, in order. *)
Fixpoint packets_sent (calls : list sock_call) : list bytes :=
  match calls with
  | [] => []
  | CSendTo packet _ _ :: rest => packet :: packets_sent rest
  | _ :: rest => packets_sent rest
  end.

(** Lines about a subnet as a whole, as opposed to lines about one probe. *)
Definition is_subnet_verdict (m : message) : bool :=
  match m with
  | MsgLive _ | MsgNotLive _ => true
  | _ => false
  end.

(** A [recvfrom] that timed out before the window of [_default_timeout]
    seconds since [start_time] had passed. *)
Definition early_timeout (start_time : Q) (ev : recv_event) : bool :=
  match ev with
  | RecvRaises socket_timeout clock =>
      negb (Qle_bool _default_timeout (clock - start_time)%Q)
  | _ => false
  end.

(** The number of sockets opened; [send_ping] opens one per call. *)
Fixpoint sockets_opened (calls : list sock_call) : nat :=
  match calls with
  | [] => 0
  | CSocket :: rest => S (sockets_opened rest)
  | _ :: rest => sockets_opened rest
  end.

(** The request that [ICMP_ECHO()] builds (see [ICMP_ECHO_default]). *)
Definition default_echo_request : ICMP_ECHO_obj :=
  mkICMP_ECHO 0 0 [] 0xF7FF
    [x08; x00; xf7; xff; x00; x00; x00; x00]
    [x08; x00; xf7; xff; x00; x00; x00; x00].

(** The receive loop without the world: what it returns, prints and calls. *)
Fixpoint recv_trace (address : string) (expected : Z) (start_time : Q)
  (events : list recv_event) : result bool * list message * list sock_call :=
  match events with
  | [] => (Ok false, [MsgTimeout address], [CRecvFrom 1024])
  | Datagram packet addr :: _ =>
      match validate_echo_response (slice packet 20 28) expected addr with
      | Raise e => (Raise e, [], [CRecvFrom 1024])
      | Ok true => (Ok true, [MsgReceived addr], [CRecvFrom 1024])
      | Ok false =>
          (Ok false, [MsgUnexpected addr; MsgBytes (slice packet 20 28)],
           [CRecvFrom 1024])
      end
  | RecvRaises e clock :: later =>
      if is_socket_timeout e then
        if Qle_bool _default_timeout (clock - start_time)%Q
        then (Ok false, [MsgTimeout address], [CRecvFrom 1024])
        else let '(r, msgs, calls) := recv_trace address expected start_time later in
             (r, msgs, CRecvFrom 1024 :: calls)
      else (Raise e, [], [CRecvFrom 1024])
  end.

(** The same for a whole probe. *)
Definition probe_trace (script : sock_script) (address : string)
  : result bool * list message * list sock_call :=
  match on_socket script with
  | Some e => (Raise e, [], [CSocket])
  | None =>
      let sent := [CSocket; CSetTimeout _default_timeout;
                   CSendTo (payload default_echo_request) address 0] in
      match on_sendto script with
      | Some e => (Raise e, [], sent)
      | None =>
          let '(r, msgs, calls) :=
            recv_trace address 0 (start_clock script) (recv_events script) in
          (r, msgs, (sent ++ calls)%list)
      end
  end.

(** [subnet] as the loop of [subnet_queue] sees it, the "/24" stripped. *)
Definition stripped (subnet : string) : string :=
  if contains "/" subnet then hd ""%string (split "/" subnet) else subnet.

(** No line of [msgs] is a verdict on a subnet. *)
Definition no_verdict (msgs : list message) : Prop :=
  forallb (fun m => negb (is_subnet_verdict m)) msgs = true.

(** The probe described by [script] meets a socket error [OSError what]:
    at [socket.socket], at [sendto], or at a [recvfrom] that only early
    timeouts precede. *)
Definition raises_socket_error (script : sock_script) (what : string) : Prop :=
  on_socket script = Some (OSError what)
  \/ (on_socket script = None /\ on_sendto script = Some (OSError what))
  \/ (on_socket script = None /\ on_sendto script = None /\
      exists early clock later,
        recv_events script = (early ++ RecvRaises (OSError what) clock :: later)%list
        /\ forallb (early_timeout (start_clock script)) early = true).

(** A network on which only "10.0.0.2" answers, and one that answers nobody. *)
Definition echo_reply_from (addr : string) : recv_event :=
  Datagram (repeat x00 20 ++ [x00; x00; xff; xff; x00; x00; x00; x00])%list addr.

Definition only_host_2 (address : string) : sock_script :=
  if String.eqb address "10.0.0.2"
  then mkScript None None 0 [echo_reply_from "('10.0.0.2', 0)"]
  else silent.

Definition nobody (address : string) : sock_script := silent.

(** A host on which raw sockets are not permitted. *)
Definition not_permitted (address : string) : sock_script :=
  mkScript (Some (OSError "[Errno 1] Operation not permitted")) None 0 [].

(** What holds of the writer and of the queue at each point of the
    writer's loop, and of the main thread once [join] has returned. *)
Definition writer_inv (s : Writer.state) : Prop :=
  match Writer.wpc s with
  | Writer.WGet =>
      Writer.unfinished_tasks s = length (Writer.queue s)
      /\ Writer.buffer s = []
      /\ Writer.enqueued s = (Writer.disk s ++ Writer.queue s)%list
  | Writer.WWrite line =>
      Writer.unfinished_tasks s = S (length (Writer.queue s))
      /\ Writer.buffer s = []
      /\ Writer.enqueued s = (Writer.disk s ++ line :: Writer.queue s)%list
  | Writer.WFlush =>
      Writer.unfinished_tasks s = S (length (Writer.queue s))
      /\ (if Writer.handle_open s
          then exists line, Writer.buffer s = [line]
          else Writer.buffer s = [])
      /\ Writer.enqueued s = (Writer.disk s ++ Writer.buffer s ++ Writer.queue s)%list
  | Writer.WTaskDone =>
      Writer.unfinished_tasks s = S (length (Writer.queue s))
      /\ Writer.buffer s = []
      /\ Writer.enqueued s = (Writer.disk s ++ Writer.queue s)%list
  | Writer.WDead => exists n, Writer.unfinished_tasks s = S n
  end
  /\ (Writer.handle_open s = false <->
      Writer.mpc s = Writer.MClosed \/ exists r, Writer.mpc s = Writer.MAborted r)
  /\ (Writer.mpc s = Writer.MStart \/ Writer.mpc s = Writer.MJoined
      \/ Writer.mpc s = Writer.MClosed ->
      Writer.unfinished_tasks s = 0%nat).

(* ================================================================= *)
(** ** The rest of the program: ICMP_ECHO.__len__, the reading of the input
    file and the choice of the output file name in main *)

(** [ICMP_ECHO.__len__(self)] *)
Definition ICMP_ECHO_len (self : ICMP_ECHO_obj) : nat :=
  length (header self ++ data self)%list.

(** [l[i]] on a list, for a non-negative index. *)
Definition getitem_list {A} (l : list A) (i : nat) : result A :=
  match nth_error l i with
  | Some x => Ok x
  | None => Raise (IndexError i)
  end.

Section Parsing.

(** [[str(ipaddress.IPv4Network(ip)) for ip in
    ipaddress.ip_network(cidr_range).subnets(new_prefix=24)]]: the /24
    networks of a range, or the exception that [ipaddress] raises. *)
Variable subnets_24 : string -> result (list string).

(** The body of [for mapping in parsing_map], returning what is added to
    [subnet_list]. *)
Definition parse_mapping (mapping : string) : result (list (string * list string)) :=
  (let? cidr_range := getitem_list (split ";" mapping) 0 in
   let? hosts := getitem_list (split ";" mapping) 1 in
   let host_range :=
     if String.eqb hosts ""
     then map (fun i => "." ++ str_of_nat i)%string (seq 0 256)
     else map (fun i => "." ++ i)%string (split "," hosts) in
   let? networks := subnets_24 cidr_range in
   Ok (map (fun ip => (ip, host_range)) networks))%res.

(** The whole loop over the lines of the input file. *)
Fixpoint parse_map (parsing_map : list string) : result (list (string * list string)) :=
  match parsing_map with
  | [] => Ok []
  | mapping :: rest =>
      (let? added := parse_mapping mapping in
       let? later := parse_map rest in
       Ok (added ++ later)%list)%res
  end.

End Parsing.

Section OutputName.

(** [os.path.splitext] and [os.path.exists], as the platform gives them. *)
Variable splitext : string -> string * string.
Variable path_exists : string -> bool.

(** [f'{root}({n}){ext}'] *)
Definition numbered (root : string) (n : nat) (ext : string) : string :=
  (root ++ "(" ++ str_of_nat n ++ ")" ++ ext)%string.

(** [while os.path.exists(f'{root}({n}){ext}'): n += 1], at most [fuel]
    tests; the value of [n] after the loop. *)
Fixpoint first_free (root ext : string) (fuel n : nat) : option nat :=
  match fuel with
  | O => None
  | S fuel' =>
      if path_exists (numbered root n ext)
      then first_free root ext fuel' (S n)
      else Some n
  end.

(** "Output file name adjustments" in [main]: the name written to, with
    [true] for each of the two warnings that was printed. *)
Definition output_file_name (fuel : nat) (output : string)
  : option (bool * bool * string) :=
  let file_name := output in
  let appended := negb (String.eqb (snd (splitext file_name)) ".txt") in
  let file_name := if appended then (file_name ++ ".txt")%string else file_name in
  if path_exists file_name then
    match first_free (fst (splitext file_name)) (snd (splitext file_name)) fuel 1 with
    | Some n =>
        Some (appended, true,
              numbered (fst (splitext file_name)) n (snd (splitext file_name)))
    | None => None
    end
  else Some (appended, false, file_name).

End OutputName.

(** A file system that holds the paths of [existing] and no other. *)
Definition exists_in (existing : list string) (path : string) : bool :=
  existsb (String.eqb path) existing.

(** ** More reading aids *)

Definition in_range16 (v : Z) : bool := (0 <=? v) && (v <=? 65535).

(** The number of [recvfrom] calls. *)
Fixpoint recvfrom_calls (calls : list sock_call) : nat :=
  match calls with
  | [] => 0
  | CRecvFrom _ :: rest => S (recvfrom_calls rest)
  | _ :: rest => recvfrom_calls rest
  end.

(** What the scan of a subnet comes to, read off the probes alone: live at
    the first probe that returns true, not live when all return false, and
    the exception of the first probe that raises. *)
Fixpoint scan_verdict (network : string -> sock_script) (base : string)
  (remaining : list string) : result bool :=
  match remaining with
  | [] => Ok false
  | suffix :: rest =>
      match probe_outcome network (candidate base suffix) with
      | Ok true => Ok true
      | Ok false => scan_verdict network base rest
      | Raise e => Raise e
      end
  end.

(** The line that a subnet adds to the output, if any. *)
Definition live_lines (network : string -> sock_script)
  (target : string * list string) : list string :=
  match scan_verdict network (stripped (fst target)) (snd target) with
  | Ok true => [(stripped (fst target) ++ "/24" ++ String "010" "")%string]
  | _ => []
  end.

(** The file holds some of the enqueued lines, from the first on and in
    order; what is buffered or in the writer's hands comes next. *)
Definition writer_fifo (s : Writer.state) : Prop :=
  match Writer.wpc s with
  | Writer.WGet | Writer.WTaskDone | Writer.WFlush =>
      Writer.enqueued s = (Writer.disk s ++ Writer.buffer s ++ Writer.queue s)%list
  | Writer.WWrite line =>
      Writer.enqueued s
      = (Writer.disk s ++ Writer.buffer s ++ line :: Writer.queue s)%list
  | Writer.WDead =>
      exists lost,
        Writer.enqueued s
        = (Writer.disk s ++ Writer.buffer s ++ lost ++ Writer.queue s)%list
  end.

(** [w] after [lines] were enqueued, [msgs] printed and [calls] made. *)
Definition world_after (w : World) (lines : list string) (msgs : list message)
  (calls : list sock_call) : World :=
  mkWorld (net w) (timeout w) (writer_queue w ++ lines)%list (out_file w)
          (stdout w ++ msgs)%list (sock_calls w ++ calls)%list.

(** The suffix list that [subnet_queue] iterates over. *)
Definition suffixes_of (suffix_list : option (list string)) : list string :=
  match suffix_list with
  | None => default_suffix_list
  | Some l => l
  end.

(** A network on which only "192.168.1.5" answers. *)
Definition only_host_5 (address : string) : sock_script :=
  if String.eqb address "192.168.1.5"
  then mkScript None None 0 [echo_reply_from "('192.168.1.5', 0)"]
  else silent.

(* ================================================================= *)
(** * Properties *)

Open Scope list_scope.

(** ** Bytes and struct *)

Lemma byte_val_range (b : byte) : 0 <= byte_val b <= 255.
Proof.
  unfold byte_val. pose proof (Byte.to_N_bounded b). lia.
Qed.

Lemma byte_of_Z_val (v : Z) (b : byte) : byte_of_Z v = Some b -> byte_val b = v.
Proof.
  unfold byte_of_Z, byte_val.
  destruct (0 <=? v) eqn:Hv; [|discriminate].
  intros H. apply Byte.to_of_N in H. rewrite H. apply Z.leb_le in Hv. lia.
Qed.

Lemma byte_of_Z_total (v : Z) : 0 <= v <= 255 -> exists b, byte_of_Z v = Some b.
Proof.
  intros Hv. unfold byte_of_Z.
  replace (0 <=? v) with true by (symmetry; apply Z.leb_le; lia).
  destruct (Byte.of_N (Z.to_N v)) eqn:E; [eauto|].
  apply Byte.of_N_None_iff in E. lia.
Qed.

Lemma byte_of_val (b : byte) : byte_of_Z (byte_val b) = Some b.
Proof.
  unfold byte_of_Z, byte_val.
  replace (0 <=? Z.of_N (to_N b)) with true by (symmetry; apply Z.leb_le; lia).
  rewrite N2Z.id. apply Byte.of_to_N.
Qed.

Lemma shiftl8 (v : Z) : Z.shiftl v 8 = 256 * v.
Proof. rewrite Z.shiftl_mul_pow2 by lia. change (2 ^ 8) with 256. lia. Qed.

Lemma shiftr8 (v : Z) : Z.shiftr v 8 = v / 256.
Proof. rewrite Z.shiftr_div_pow2 by lia. reflexivity. Qed.

Lemma land255 (v : Z) : Z.land v 255 = v mod 256.
Proof. change 255 with (Z.ones 8). rewrite Z.land_ones by lia. reflexivity. Qed.

Lemma land_ffff (v : Z) : Z.land v 0xffff = v mod 65536.
Proof. change 0xffff with (Z.ones 16). rewrite Z.land_ones by lia. reflexivity. Qed.

Lemma shiftr16 (v : Z) : Z.shiftr v 16 = v / 65536.
Proof. rewrite Z.shiftr_div_pow2 by lia. reflexivity. Qed.

(** On the values of two bytes, [(hi << 8) | lo] is [256 * hi + lo]. *)
Lemma unpack_H_val (hi lo : byte) : unpack_H hi lo = 256 * byte_val hi + byte_val lo.
Proof.
  unfold unpack_H. pose proof (byte_val_range lo) as Hlo.
  assert (Hdisj : Z.land (Z.shiftl (byte_val hi) 8) (byte_val lo) = 0).
  { apply Z.bits_inj'. intros n Hn. rewrite Z.land_spec, Z.bits_0.
    destruct (Z.ltb_spec n 8).
    - rewrite Z.shiftl_spec_low by lia. reflexivity.
    - replace (Z.testbit (byte_val lo) n) with false; [apply andb_false_r|].
      symmetry. destruct (Z.eq_dec (byte_val lo) 0) as [->|Hne]; [apply Z.bits_0|].
      apply Z.bits_above_log2; [lia|].
      apply Z.lt_le_trans with 8; [|lia]. apply Z.log2_lt_pow2; lia. }
  rewrite <- Z.lxor_lor by exact Hdisj.
  rewrite <- Z.add_nocarry_lxor by exact Hdisj.
  rewrite shiftl8. reflexivity.
Qed.

Lemma pack_H_ok (v : Z) :
  0 <= v <= 65535 ->
  exists hi lo, pack_H v = Ok [hi; lo] /\ 256 * byte_val hi + byte_val lo = v.
Proof.
  intros Hv. unfold pack_H.
  replace ((0 <=? v) && (v <=? 65535)) with true
    by (symmetry; apply andb_true_iff; split; apply Z.leb_le; lia).
  rewrite shiftr8, land255.
  destruct (byte_of_Z_total (v / 256)) as [hi Hhi].
  { assert (v / 256 < 256) by (apply Z.div_lt_upper_bound; lia).
    assert (0 <= v / 256) by (apply Z.div_pos; lia). lia. }
  destruct (byte_of_Z_total (v mod 256)) as [lo Hlo].
  { pose proof (Z.mod_pos_bound v 256). lia. }
  rewrite Hhi, Hlo. exists hi, lo. split; [reflexivity|].
  rewrite (byte_of_Z_val _ _ Hhi), (byte_of_Z_val _ _ Hlo).
  pose proof (Z.div_mod v 256). lia.
Qed.

Lemma pack_H_range (v : Z) (l : bytes) : pack_H v = Ok l -> 0 <= v <= 65535.
Proof.
  unfold pack_H. destruct ((0 <=? v) && (v <=? 65535)) eqn:E; [|discriminate].
  intros _. apply andb_true_iff in E. destruct E as [E1 E2].
  apply Z.leb_le in E1. apply Z.leb_le in E2. lia.
Qed.

(** What [struct.pack("!BBHHH", 8, 0, c, d, e)] returns when the three
    16-bit fields are in range. *)
Lemma struct_pack_ok (c d e : Z) :
  0 <= c <= 65535 -> 0 <= d <= 65535 -> 0 <= e <= 65535 ->
  exists c1 c0 d1 d0 e1 e0,
    struct_pack _ECHO_REQ 0 c d e = Ok ["008"%byte; "000"%byte; c1; c0; d1; d0; e1; e0]
    /\ 256 * byte_val c1 + byte_val c0 = c
    /\ 256 * byte_val d1 + byte_val d0 = d
    /\ 256 * byte_val e1 + byte_val e0 = e.
Proof.
  intros Hc Hd He.
  destruct (pack_H_ok c Hc) as (c1 & c0 & Pc & Vc).
  destruct (pack_H_ok d Hd) as (d1 & d0 & Pd & Vd).
  destruct (pack_H_ok e He) as (e1 & e0 & Pe & Ve).
  exists c1, c0, d1, d0, e1, e0. unfold struct_pack.
  change (pack_B _ECHO_REQ) with (@Ok bytes ["008"%byte]).
  change (pack_B 0) with (@Ok bytes ["000"%byte]).
  rewrite Pc, Pd, Pe. simpl. auto.
Qed.

(** The two fields of a packed header that depend on the arguments alone. *)
Lemma struct_pack_same_tail (c c' d e : Z) (l l' : bytes) :
  struct_pack _ECHO_REQ 0 c d e = Ok l ->
  struct_pack _ECHO_REQ 0 c' d e = Ok l' ->
  skipn 4 l = skipn 4 l'.
Proof.
  unfold struct_pack.
  change (pack_B _ECHO_REQ) with (@Ok bytes ["008"%byte]).
  change (pack_B 0) with (@Ok bytes ["000"%byte]). simpl.
  destruct (pack_H c) as [pc|] eqn:Pc; [|discriminate].
  destruct (pack_H c') as [pc'|] eqn:Pc'; [|discriminate].
  destruct (pack_H d) as [pd|]; [|discriminate].
  destruct (pack_H e) as [pe|]; [|discriminate]. simpl.
  destruct (pack_H_ok c (pack_H_range _ _ Pc)) as (? & ? & Q & _).
  destruct (pack_H_ok c' (pack_H_range _ _ Pc')) as (? & ? & Q' & _).
  rewrite Q in Pc. rewrite Q' in Pc'. inversion Pc; inversion Pc'; subst.
  intros H H'. inversion H; inversion H'; subst. reflexivity.
Qed.

(** ** The checksum loop over a buffer *)

Lemma checksum_step_add_word (c : Z) (hi lo : byte) :
  checksum_step c (byte_val hi) (byte_val lo)
  = add_word c (256 * byte_val hi + byte_val lo).
Proof.
  unfold checksum_step, add_word. cbv zeta.
  rewrite land_ffff, shiftr16, shiftl8. reflexivity.
Qed.

Lemma getitem_app (pre : bytes) (x : byte) (post : bytes) :
  getitem (pre ++ x :: post) (length pre) = Ok (byte_val x).
Proof.
  unfold getitem. rewrite nth_error_app2 by lia.
  rewrite Nat.sub_diag. reflexivity.
Qed.

Lemma getitem_end (b : bytes) : getitem b (length b) = Raise (IndexError (length b)).
Proof.
  unfold getitem. replace (nth_error b (length b)) with (@None byte); [reflexivity|].
  symmetry. apply nth_error_None. lia.
Qed.

(** Over a buffer of [2 * n] bytes read from offset [length pre] on, the loop
    makes [n] iterations, never leaves the buffer, and adds the words up. *)
Lemma checksum_loop_even (n : nat) : forall (pre b : bytes) (c : Z),
  length b = (2 * n)%nat ->
  checksum_loop (pre ++ b) (range2 (length pre) n) c
  = Ok (fold_left add_word (be_words b) c).
Proof.
  induction n as [|n IH]; intros pre b c Hlen.
  - destruct b; [reflexivity | discriminate].
  - destruct b as [|x [|y b]]; try (simpl in Hlen; lia).
    cbn [range2 checksum_loop]. rewrite getitem_app. cbn [rbind].
    replace (pre ++ x :: y :: b)%list with ((pre ++ [x]) ++ y :: b)%list
      by (rewrite <- app_assoc; reflexivity).
    replace (length pre + 1)%nat with (length (pre ++ [x])%list)
      by (rewrite length_app; reflexivity).
    rewrite getitem_app. cbn [rbind].
    replace ((pre ++ [x]) ++ y :: b)%list with ((pre ++ [x; y]) ++ b)%list
      by (rewrite <- !app_assoc; reflexivity).
    replace (length pre + 2)%nat with (length (pre ++ [x; y])%list)
      by (rewrite length_app; reflexivity).
    rewrite IH by (simpl in Hlen; lia).
    rewrite checksum_step_add_word. reflexivity.
Qed.

(** Over a buffer of [2 * n + 1] bytes, iteration [n] reads index
    [length buffer], which is one past the last byte. *)
Lemma checksum_loop_odd (n : nat) : forall (pre b : bytes) (c : Z),
  length b = (2 * n + 1)%nat ->
  checksum_loop (pre ++ b) (range2 (length pre) (S n)) c
  = Raise (IndexError (length (pre ++ b))).
Proof.
  induction n as [|n IH]; intros pre b c Hlen.
  - destruct b as [|x [|y b]]; try discriminate.
    cbn [range2 checksum_loop]. rewrite getitem_app. cbn [rbind].
    replace (length pre + 1)%nat with (length (pre ++ [x])%list)
      by (rewrite length_app; reflexivity).
    rewrite getitem_end. reflexivity.
  - destruct b as [|x [|y b]]; try (simpl in Hlen; lia).
    cbn [range2 checksum_loop]. rewrite getitem_app. cbn [rbind].
    replace (pre ++ x :: y :: b)%list with ((pre ++ [x]) ++ y :: b)%list
      by (rewrite <- app_assoc; reflexivity).
    replace (length pre + 1)%nat with (length (pre ++ [x])%list)
      by (rewrite length_app; reflexivity).
    rewrite getitem_app. cbn [rbind].
    replace ((pre ++ [x]) ++ y :: b)%list with ((pre ++ [x; y]) ++ b)%list
      by (rewrite <- !app_assoc; reflexivity).
    replace (length pre + 2)%nat with (length (pre ++ [x; y])%list)
      by (rewrite length_app; reflexivity).
    apply IH. simpl in Hlen; lia.
Qed.

Lemma even_half (m : nat) : Nat.even m = true -> exists n, m = (2 * n)%nat.
Proof.
  intros H. apply Nat.even_spec in H. destruct H as [n ->]. eauto.
Qed.

Lemma odd_half (m : nat) : Nat.odd m = true -> exists n, m = (2 * n + 1)%nat.
Proof.
  intros H. apply Nat.odd_spec in H. destruct H as [n ->]. eauto.
Qed.

Lemma div2_double (n : nat) : Nat.div2 (2 * n + 1) = n.
Proof.
  replace (2 * n + 1)%nat with (S (2 * n)) by lia. apply Nat.div2_succ_double.
Qed.

Lemma div2_double' (n : nat) : Nat.div2 (2 * n + 1 + 1) = S n.
Proof.
  replace (2 * n + 1 + 1)%nat with (2 * S n)%nat by lia. apply Nat.div2_double.
Qed.

Lemma checksum_loop_even_length (b : bytes) :
  Nat.even (length b) = true ->
  checksum_loop b (range_0_n_2 (length b)) 0 = Ok (fold_left add_word (be_words b) 0).
Proof.
  intros H. destruct (even_half _ H) as [n Hn].
  unfold range_0_n_2. rewrite Hn, div2_double.
  apply (checksum_loop_even n [] b 0 Hn).
Qed.

Lemma checksum_loop_odd_length (b : bytes) :
  Nat.odd (length b) = true ->
  checksum_loop b (range_0_n_2 (length b)) 0 = Raise (IndexError (length b)).
Proof.
  intros H. destruct (odd_half _ H) as [n Hn].
  unfold range_0_n_2. rewrite Hn at 1. rewrite div2_double'.
  apply (checksum_loop_odd n [] b 0 Hn).
Qed.

(** ** Arithmetic of the end-around carry *)

Lemma add_word_spec (c w : Z) :
  0 <= c <= 65535 -> 0 <= w <= 65535 ->
  0 <= add_word c w <= 65535
  /\ (exists k, add_word c w = c + w - 65535 * k)
  /\ (0 < c -> 0 < add_word c w).
Proof.
  intros Hc Hw. unfold add_word.
  pose proof (Z.div_mod (c + w) 65536 ltac:(lia)) as E.
  pose proof (Z.mod_pos_bound (c + w) 65536 ltac:(lia)) as R.
  assert (0 <= (c + w) / 65536) by (apply Z.div_pos; lia).
  assert ((c + w) / 65536 < 2) by (apply Z.div_lt_upper_bound; lia).
  split; [lia|]. split; [|lia].
  exists ((c + w) / 65536). lia.
Qed.

Lemma fold_add_word_spec (ws : list Z) : forall c,
  Forall (fun w => 0 <= w <= 65535) ws ->
  0 <= c <= 65535 ->
  0 <= fold_left add_word ws c <= 65535
  /\ (exists k, fold_left add_word ws c = c + zsum ws - 65535 * k)
  /\ (0 < c -> 0 < fold_left add_word ws c).
Proof.
  induction ws as [|w ws IH]; intros c Hws Hc.
  - simpl. split; [lia|]. split; [|lia]. exists 0. lia.
  - inversion Hws as [|? ? Hw Hws']; subst.
    destruct (add_word_spec c w Hc Hw) as (B & [k Hk] & P).
    destruct (IH (add_word c w) Hws' B) as (B' & [k' Hk'] & P').
    cbn [fold_left zsum fold_right]. split; [exact B'|]. split.
    + exists (k + k'). unfold zsum in Hk'. lia.
    + intros Hpos. apply P', P, Hpos.
Qed.

(** Lists are cut into words two bytes at a time. *)
Lemma bytes_pair_ind (P : bytes -> Prop) :
  P [] -> (forall x, P [x]) -> (forall x y b, P b -> P (x :: y :: b)) ->
  forall b, P b.
Proof.
  intros H0 H1 H2.
  assert (H : forall b, P b /\ forall x, P (x :: b)).
  { induction b as [|y b [IHb IHb']]; split; auto. }
  intros b. apply H.
Qed.

Lemma be_words_range (b : bytes) : Forall (fun w => 0 <= w <= 65535) (be_words b).
Proof.
  induction b as [|x|x y b IH] using bytes_pair_ind; cbn [be_words].
  - constructor.
  - constructor; [|constructor]. pose proof (byte_val_range x). lia.
  - constructor; [|exact IH].
    pose proof (byte_val_range x). pose proof (byte_val_range y). lia.
Qed.

Lemma zsum_be_words_bound (b : bytes) :
  0 <= zsum (be_words b) <= 65535 * Z.of_nat (length b).
Proof.
  induction b as [|x|x y b IH] using bytes_pair_ind; cbn [be_words zsum fold_right].
  - simpl. lia.
  - pose proof (byte_val_range x). cbn [length]. lia.
  - pose proof (byte_val_range x). pose proof (byte_val_range y).
    unfold zsum in IH. cbn [length]. lia.
Qed.

Lemma fold_carries_spec (fuel : nat) : forall x,
  0 < x -> x <= 65535 * (Z.of_nat fuel + 1) ->
  0 < fold_carries fuel x <= 65535
  /\ exists k, fold_carries fuel x = x - 65535 * k.
Proof.
  induction fuel as [|fuel IH]; intros x Hpos Hx.
  - simpl. split; [lia|]. exists 0. lia.
  - cbn [fold_carries]. destruct (Z.ltb_spec x 65536) as [Hlt|Hge].
    + split; [lia|]. exists 0. lia.
    + pose proof (Z.div_mod x 65536 ltac:(lia)) as E.
      pose proof (Z.mod_pos_bound x 65536 ltac:(lia)) as R.
      assert (1 <= x / 65536) by (apply Z.div_le_lower_bound; lia).
      destruct (IH (x mod 65536 + x / 65536)) as (B & [k Hk]); [lia|lia|].
      split; [exact B|]. exists (k + x / 65536). lia.
Qed.

Lemma lnot_land_ffff (s : Z) : 0 <= s <= 65535 -> Z.land (Z.lnot s) 0xffff = 65535 - s.
Proof.
  intros Hs. rewrite land_ffff. unfold Z.lnot.
  symmetry. apply (Z.mod_unique_pos _ _ (-1)); lia.
Qed.

(** ** What the constructor builds *)

(** For an even-length payload and 16-bit identifier and sequence number the
    constructor returns a packet whose header is the eight bytes below; [s] is
    the folded sum that the loop ends with. *)
Lemma ICMP_ECHO_even (id seq : Z) (payload_data : bytes) :
  0 <= id <= 65535 -> 0 <= seq <= 65535 ->
  Nat.even (length payload_data) = true ->
  exists s c1 c0 d1 d0 e1 e0,
    ICMP_ECHO id seq payload_data
    = Ok (mkICMP_ECHO id seq payload_data (65535 - s)
            ["008"%byte; "000"%byte; c1; c0; d1; d0; e1; e0]
            (["008"%byte; "000"%byte; c1; c0; d1; d0; e1; e0] ++ payload_data))
    /\ 256 * byte_val c1 + byte_val c0 = 65535 - s
    /\ 256 * byte_val d1 + byte_val d0 = id
    /\ 256 * byte_val e1 + byte_val e0 = seq
    /\ 0 < s <= 65535
    /\ exists k, s = 2048 + id + seq + zsum (be_words payload_data) - 65535 * k.
Proof.
  intros Hid Hseq Heven.
  destruct (struct_pack_ok 0 id seq ltac:(lia) Hid Hseq)
    as (z1 & z0 & d1 & d0 & e1 & e0 & P0 & Vz & Vd & Ve).
  unfold ICMP_ECHO. rewrite P0. cbn [rbind].
  rewrite checksum_loop_even_length
    by (rewrite length_app, Nat.even_add, Heven; reflexivity).
  cbn [rbind app be_words fold_left].
  change (byte_val "008") with 8. change (byte_val "000") with 0.
  change (add_word 0 (256 * 8 + 0)) with 2048.
  rewrite Vz, Vd, Ve.
  pose proof (be_words_range payload_data) as Hr.
  destruct (fold_add_word_spec (0 :: id :: seq :: be_words payload_data) 2048)
    as (B & [k Hk] & Ppos); [repeat constructor; try lia; exact Hr | lia |].
  set (s := fold_left add_word (be_words payload_data) _) in *.
  cbn [fold_left] in B, Hk, Ppos. fold s in B, Hk, Ppos.
  specialize (Ppos ltac:(lia)).
  rewrite lnot_land_ffff by lia.
  destruct (struct_pack_ok (65535 - s) id seq ltac:(lia) Hid Hseq)
    as (c1 & c0 & d1' & d0' & e1' & e0' & P1 & Vc & Vd' & Ve').
  rewrite P1. cbn [rbind].
  exists s, c1, c0, d1', d0', e1', e0'.
  split; [reflexivity|]. do 3 (split; [assumption|]). split; [lia|].
  exists k. cbn [zsum fold_right] in Hk. unfold zsum. lia.
Qed.

(** ** The packet codec: claims C1, C6, C8, C9 *)

(** C1. For every identifier and sequence number in 0..65535 and every
    payload of even length, [ICMP_ECHO] returns a packet made of an 8-byte
    header carrying the computed checksum, followed by the payload, and the
    one's-complement sum of the 16-bit words of the whole packet, checksum
    field included, is 0xFFFF. *)
Theorem C1_checksum_self_consistency (id seq : Z) (payload_data : bytes) :
  0 <= id <= 65535 -> 0 <= seq <= 65535 ->
  Nat.even (length payload_data) = true ->
  exists pkt,
    ICMP_ECHO id seq payload_data = Ok pkt
    /\ length (header pkt) = 8%nat
    /\ payload pkt = header pkt ++ payload_data
    /\ struct_unpack (header pkt) = Ok (8, 0, checksum pkt, id, seq)
    /\ ones_complement_sum (payload pkt) = 0xFFFF.
Proof.
  intros Hid Hseq Heven.
  destruct (ICMP_ECHO_even id seq payload_data Hid Hseq Heven)
    as (s & c1 & c0 & d1 & d0 & e1 & e0 & E & Vc & Vd & Ve & Hs & [k Hk]).
  eexists. split; [exact E|]. cbn [header payload checksum].
  split; [reflexivity|]. split; [reflexivity|]. split.
  - cbn [struct_unpack]. rewrite !unpack_H_val, Vc, Vd, Ve. reflexivity.
  - unfold ones_complement_sum.
    set (pkt := _ ++ payload_data).
    pose proof (zsum_be_words_bound pkt) as Hb.
    pose proof (zsum_be_words_bound payload_data) as Hd.
    assert (Hsum : zsum (be_words pkt) = 65535 * (k + 1)
                   /\ 0 < zsum (be_words pkt)).
    { subst pkt. cbn [app be_words zsum fold_right].
      change (byte_val "008") with 8. change (byte_val "000") with 0.
      rewrite Vc, Vd, Ve. unfold zsum in Hk, Hd. lia. }
    destruct Hsum as [Hsum Hpos].
    destruct (fold_carries_spec (length pkt) (zsum (be_words pkt)))
      as (B & [k' Hk']); [lia | lia |].
    lia.
Qed.

Lemma C1_checksum_self_consistency_witness :
  exists pkt,
    ICMP_ECHO 1234 77 ["001"%byte; "254"%byte] = Ok pkt
    /\ length (header pkt) = 8%nat
    /\ payload pkt = header pkt ++ ["001"%byte; "254"%byte]
    /\ struct_unpack (header pkt) = Ok (8, 0, checksum pkt, 1234, 77)
    /\ ones_complement_sum (payload pkt) = 0xFFFF.
Proof.
  apply (C1_checksum_self_consistency 1234 77 ["001"%byte; "254"%byte]);
    [lia | lia | reflexivity].
Defined.

(** C8. For every identifier and sequence number in 0..65535, unpacking the
    header of the request built with an empty payload gives back that
    identifier and that sequence number (with type 8, code 0 and the stored
    checksum). *)
Theorem C8_header_round_trip (id seq : Z) :
  0 <= id <= 65535 -> 0 <= seq <= 65535 ->
  exists pkt,
    ICMP_ECHO id seq [] = Ok pkt
    /\ icmp_id pkt = id /\ sequence pkt = seq
    /\ struct_unpack (header pkt) = Ok (_ECHO_REQ, 0, checksum pkt, id, seq).
Proof.
  intros Hid Hseq.
  destruct (ICMP_ECHO_even id seq [] Hid Hseq eq_refl)
    as (s & c1 & c0 & d1 & d0 & e1 & e0 & E & Vc & Vd & Ve & _).
  eexists. split; [exact E|]. cbn [header checksum icmp_id sequence struct_unpack].
  rewrite !unpack_H_val, Vc, Vd, Ve. auto.
Qed.

Lemma C8_header_round_trip_witness :
  exists pkt,
    ICMP_ECHO 513 65535 [] = Ok pkt
    /\ icmp_id pkt = 513 /\ sequence pkt = 65535
    /\ struct_unpack (header pkt) = Ok (_ECHO_REQ, 0, checksum pkt, 513, 65535).
Proof.
  apply (C8_header_round_trip 513 65535); lia.
Defined.

Lemma range2_in_bounds (n : nat) : forall start,
  Forall (fun i => (i + 1 < start + 2 * n)%nat) (range2 start n).
Proof.
  induction n as [|n IH]; intros start; cbn [range2]; constructor.
  - lia.
  - eapply Forall_impl; [|apply (IH (start + 2)%nat)].
    intros i Hi. cbn beta in Hi. lia.
Qed.

Lemma range2_last (n : nat) : forall start,
  last (range2 start (S n)) 0%nat = (start + 2 * n)%nat.
Proof.
  induction n as [|n IH]; intros start.
  - simpl. lia.
  - change (range2 start (S (S n))) with (start :: range2 (start + 2) (S n)).
    change (last (start :: range2 (start + 2) (S n)) 0%nat)
      with (last (range2 (start + 2) (S n)) 0%nat).
    rewrite IH. lia.
Qed.

(** C9. The buffer that the checksum loop walks is the 8-byte header
    followed by the payload.  When the payload has even length, every
    iteration [i] reads [i] and [i + 1] inside the buffer and the loop ends
    with a sum, so the constructor returns a packet.  When the payload has odd
    length, the last iteration starts at the last byte and its read of
    [i + 1] is at index [len(buffer)], one past the end: the loop, and with it
    the constructor, stops there on IndexError. *)
Theorem C9_checksum_loop_bounds (icmp_header payload_data : bytes) :
  length icmp_header = 8%nat ->
  let buffer := icmp_header ++ payload_data in
  let indices := range_0_n_2 (length buffer) in
  (Nat.even (length payload_data) = true ->
     Forall (fun i => (i + 1 < length buffer)%nat) indices
     /\ (exists sum, checksum_loop buffer indices 0 = Ok sum)
     /\ forall id seq, 0 <= id <= 65535 -> 0 <= seq <= 65535 ->
          exists pkt, ICMP_ECHO id seq payload_data = Ok pkt)
  /\ (Nat.odd (length payload_data) = true ->
     (last indices 0 + 1)%nat = length buffer
     /\ nth_error buffer (last indices 0 + 1)%nat = None
     /\ checksum_loop buffer indices 0 = Raise (IndexError (length buffer))
     /\ forall id seq, 0 <= id <= 65535 -> 0 <= seq <= 65535 ->
          ICMP_ECHO id seq payload_data
          = Raise (IndexError (8 + length payload_data))).
Proof.
  intros Hlen buffer indices. split.
  - intros Heven.
    assert (Hb : Nat.even (length buffer) = true).
    { subst buffer. rewrite length_app, Hlen, Nat.even_add, Heven. reflexivity. }
    split; [|split].
    + subst indices. destruct (even_half _ Hb) as [n Hn].
      unfold range_0_n_2. rewrite Hn, div2_double.
      apply (range2_in_bounds n 0).
    + eexists. apply checksum_loop_even_length, Hb.
    + intros id seq Hid Hseq.
      destruct (ICMP_ECHO_even id seq payload_data Hid Hseq Heven)
        as (s & c1 & c0 & d1 & d0 & e1 & e0 & E & _).
      eexists. exact E.
  - intros Hodd.
    assert (Hb : Nat.odd (length buffer) = true).
    { subst buffer. rewrite length_app, Hlen, Nat.odd_add, Hodd. reflexivity. }
    assert (Hlast : (last indices 0 + 1)%nat = length buffer).
    { subst indices. destruct (odd_half _ Hb) as [n Hn].
      unfold range_0_n_2. rewrite Hn, div2_double', range2_last. lia. }
    split; [exact Hlast|]. split; [|split].
    + rewrite Hlast. apply nth_error_None. lia.
    + apply checksum_loop_odd_length, Hb.
    + intros id seq Hid Hseq.
      destruct (struct_pack_ok 0 id seq ltac:(lia) Hid Hseq)
        as (z1 & z0 & d1 & d0 & e1 & e0 & P0 & _).
      unfold ICMP_ECHO. rewrite P0. cbn [rbind].
      rewrite checksum_loop_odd_length
        by (rewrite length_app, Nat.odd_add, Hodd; reflexivity).
      rewrite length_app. reflexivity.
Qed.

Lemma C9_checksum_loop_bounds_witness :
  (exists pkt, ICMP_ECHO 7 1 ["171"%byte; "205"%byte] = Ok pkt)
  /\ ICMP_ECHO 7 1 ["171"%byte] = Raise (IndexError 9).
Proof.
  pose (hdr := repeat "000"%byte 8).
  split.
  - destruct (C9_checksum_loop_bounds hdr ["171"%byte; "205"%byte] eq_refl)
      as [Heven _].
    destruct (Heven eq_refl) as (_ & _ & Hpkt). apply Hpkt; lia.
  - destruct (C9_checksum_loop_bounds hdr ["171"%byte] eq_refl) as [_ Hodd].
    destruct (Hodd eq_refl) as (_ & _ & _ & Hexn). apply Hexn; lia.
Defined.

Lemma eight_bytes (l : bytes) :
  length l = 8%nat -> exists b0 b1 b2 b3 b4 b5 b6 b7, l = [b0; b1; b2; b3; b4; b5; b6; b7].
Proof.
  intros Hlen.
  destruct l as [|b0 [|b1 [|b2 [|b3 [|b4 [|b5 [|b6 [|b7 [|]]]]]]]]];
    try discriminate.
  exists b0, b1, b2, b3, b4, b5, b6, b7. reflexivity.
Qed.

Lemma validate_echo_response_header {Addr : Type}
  (b0 b1 b2 b3 b4 b5 b6 b7 : byte) (expected : Z) (a : Addr) :
  validate_echo_response [b0; b1; b2; b3; b4; b5; b6; b7] expected a
  = Ok ((byte_val b0 =? 0) && (byte_val b1 =? 0) && (unpack_H b4 b5 =? expected)).
Proof.
  unfold validate_echo_response. cbn [struct_unpack rbind].
  destruct ((byte_val b0 =? 0) && (byte_val b1 =? 0) && (unpack_H b4 b5 =? expected));
    reflexivity.
Qed.

(** C6. On an 8-byte header, [validate_echo_response] returns a boolean, and
    it returns true exactly when the type is 0, the code is 0 and the
    identifier is the expected one.  So it returns false when the identifier
    differs, and two headers that differ only in checksum and sequence number
    get the same answer. *)
Theorem C6_validate_triple_check {Addr : Type}
  (icmp_response : bytes) (expected : Z) (address : Addr) :
  length icmp_response = 8%nat ->
  exists type code cksum id seq,
    struct_unpack icmp_response = Ok (type, code, cksum, id, seq)
    /\ validate_echo_response icmp_response expected address
       = Ok ((type =? 0) && (code =? 0) && (id =? expected))
    /\ (validate_echo_response icmp_response expected address = Ok true
        <-> type = 0 /\ code = 0 /\ id = expected)
    /\ (id <> expected ->
        validate_echo_response icmp_response expected address = Ok false)
    /\ (forall other cksum' seq' (address' : Addr),
          struct_unpack other = Ok (type, code, cksum', id, seq') ->
          validate_echo_response other expected address'
          = validate_echo_response icmp_response expected address).
Proof.
  intros Hlen.
  destruct (eight_bytes _ Hlen) as (b0 & b1 & b2 & b3 & b4 & b5 & b6 & b7 & ->).
  exists (byte_val b0), (byte_val b1), (unpack_H b2 b3), (unpack_H b4 b5),
    (unpack_H b6 b7).
  pose proof (fun a : Addr =>
                validate_echo_response_header b0 b1 b2 b3 b4 b5 b6 b7 expected a) as V.
  split; [reflexivity|]. split; [apply V|]. split; [|split].
  - rewrite V. split.
    + intros H. injection H as H.
      apply andb_true_iff in H. destruct H as [H H3].
      apply andb_true_iff in H. destruct H as [H1 H2].
      apply Z.eqb_eq in H1, H2, H3. auto.
    + intros (H1 & H2 & H3). rewrite H1, H2, H3, !Z.eqb_refl. reflexivity.
  - intros Hne. rewrite V. apply Z.eqb_neq in Hne. rewrite Hne.
    rewrite andb_false_r. reflexivity.
  - intros other cksum' seq' address' Hother. rewrite V.
    unfold validate_echo_response. rewrite Hother. cbn [rbind].
    destruct ((byte_val b0 =? 0) && (byte_val b1 =? 0) && (unpack_H b4 b5 =? expected));
      reflexivity.
Qed.

Lemma C6_validate_triple_check_witness :
  exists type code cksum id seq,
    struct_unpack (repeat "000"%byte 8) = Ok (type, code, cksum, id, seq)
    /\ validate_echo_response (repeat "000"%byte 8) 0 tt
       = Ok ((type =? 0) && (code =? 0) && (id =? 0))
    /\ (validate_echo_response (repeat "000"%byte 8) 0 tt = Ok true
        <-> type = 0 /\ code = 0 /\ id = 0)
    /\ (id <> 0 -> validate_echo_response (repeat "000"%byte 8) 0 tt = Ok false)
    /\ (forall other cksum' seq' (address' : unit),
          struct_unpack other = Ok (type, code, cksum', id, seq') ->
          validate_echo_response other 0 address'
          = validate_echo_response (repeat "000"%byte 8) 0 tt).
Proof.
  apply (C6_validate_triple_check (repeat "000"%byte 8) 0 tt). reflexivity.
Defined.

(** ** The probe *)

Lemma ICMP_ECHO_default : ICMP_ECHO 0 0 [] = Ok default_echo_request.
Proof. reflexivity. Qed.

Lemma extend_extend (w : World) m1 c1 m2 c2 :
  extend (extend w m1 c1) m2 c2 = extend w (m1 ++ m2) (c1 ++ c2).
Proof. unfold extend. cbn. rewrite <- !app_assoc. reflexivity. Qed.

Lemma extend_nil (w : World) : extend w [] [] = w.
Proof. destruct w. unfold extend. cbn. rewrite !app_nil_r. reflexivity. Qed.

Lemma print_extend (m : message) (w : World) : print m w = (Ok tt, extend w [m] []).
Proof. unfold print, extend. rewrite app_nil_r. reflexivity. Qed.

Lemma log_call_extend (c : sock_call) (w : World) :
  log_call c w = (Ok tt, extend w [] [c]).
Proof. unfold log_call, extend. rewrite app_nil_r. reflexivity. Qed.

Ltac run_prims :=
  repeat (unfold bind at 1;
          first [rewrite print_extend | rewrite log_call_extend]);
  rewrite ?extend_extend; cbn [app].

Lemma recv_loop_trace (address : string) (req : ICMP_ECHO_obj) (start_time : Q)
  (events : list recv_event) : forall w,
  recv_loop address req start_time events w
  = let '(r, msgs, calls) := recv_trace address (icmp_id req) start_time events in
    (r, extend w msgs calls).
Proof.
  induction events as [|ev later IH]; intros w.
  - cbn [recv_loop recv_trace]. run_prims. reflexivity.
  - destruct ev as [packet addr | e clock]; cbn [recv_loop recv_trace].
    + unfold bind at 1. rewrite log_call_extend.
      unfold bind at 1, lift.
      destruct (validate_echo_response _ _ addr) as [[|]|e]; [| |reflexivity].
      * run_prims. reflexivity.
      * run_prims. reflexivity.
    + unfold bind at 1. rewrite log_call_extend.
      destruct (is_socket_timeout e); [|reflexivity].
      destruct (Qle_bool _ _).
      * run_prims. reflexivity.
      * rewrite IH. destruct (recv_trace _ _ _ later) as [[r msgs] calls].
        rewrite extend_extend. reflexivity.
Qed.

(** [send_ping] returns what [probe_trace] says and leaves the world extended
    by the lines and socket calls listed there: nothing else changes. *)
Lemma send_ping_trace (address : string) (w : World) :
  send_ping address w
  = let '(r, msgs, calls) := probe_trace (net w address) address in
    (r, extend w msgs calls).
Proof.
  unfold send_ping, probe_trace, script_of. unfold bind at 1.
  unfold bind at 1. rewrite log_call_extend.
  unfold bind at 1. destruct (on_socket (net w address)) as [e|]; [reflexivity|].
  cbn [may_raise ret]. unfold bind at 1. rewrite log_call_extend, extend_extend.
  unfold bind at 1, lift. rewrite ICMP_ECHO_default.
  unfold bind at 1. rewrite log_call_extend, extend_extend.
  unfold bind at 1. destruct (on_sendto (net w address)) as [e|]; [reflexivity|].
  cbn [may_raise ret]. rewrite recv_loop_trace.
  change (icmp_id default_echo_request) with 0.
  destruct (recv_trace _ _ _ _) as [[r msgs] calls].
  rewrite extend_extend. reflexivity.
Qed.

Lemma send_ping_outcome (address : string) (w : World) :
  fst (send_ping address w) = probe_outcome (net w) address.
Proof.
  unfold probe_outcome. rewrite !send_ping_trace. cbn [net world0].
  destruct (probe_trace _ _) as [[r msgs] calls]. reflexivity.
Qed.

Lemma sent_to_app (a b : list sock_call) : sent_to (a ++ b) = sent_to a ++ sent_to b.
Proof.
  induction a as [|[| | |] a IH]; cbn [sent_to app]; rewrite ?IH; reflexivity.
Qed.

Lemma timeouts_set_app (a b : list sock_call) :
  timeouts_set (a ++ b) = timeouts_set a ++ timeouts_set b.
Proof.
  induction a as [|[| | |] a IH]; cbn [timeouts_set app]; rewrite ?IH; reflexivity.
Qed.

Lemma packets_sent_app (a b : list sock_call) :
  packets_sent (a ++ b) = packets_sent a ++ packets_sent b.
Proof.
  induction a as [|[| | |] a IH]; cbn [packets_sent app]; rewrite ?IH; reflexivity.
Qed.

Lemma sockets_opened_app (a b : list sock_call) :
  sockets_opened (a ++ b) = (sockets_opened a + sockets_opened b)%nat.
Proof.
  induction a as [|[| | |] a IH]; cbn [sockets_opened app]; rewrite ?IH; reflexivity.
Qed.

Lemma no_verdict_app (a b : list message) :
  no_verdict a -> no_verdict b -> no_verdict (a ++ b).
Proof.
  unfold no_verdict. intros Ha Hb. rewrite forallb_app, Ha, Hb. reflexivity.
Qed.

(** The receive loop prints no verdict and makes only [recvfrom] calls. *)
Lemma recv_trace_props (address : string) (expected : Z) (start_time : Q)
  (events : list recv_event) : forall r msgs calls,
  recv_trace address expected start_time events = (r, msgs, calls) ->
  no_verdict msgs /\ sent_to calls = [] /\ timeouts_set calls = []
  /\ packets_sent calls = [] /\ sockets_opened calls = 0%nat.
Proof.
  induction events as [|ev later IH]; intros r msgs calls E.
  - injection E as <- <- <-. repeat split.
  - destruct ev as [packet addr | e clock]; cbn [recv_trace] in E.
    + destruct (validate_echo_response _ _ addr) as [[|]|e];
        injection E as <- <- <-; repeat split.
    + destruct (is_socket_timeout e); [|injection E as <- <- <-; repeat split].
      destruct (Qle_bool _ _); [injection E as <- <- <-; repeat split|].
      destruct (recv_trace _ _ _ later) as [[r' msgs'] calls'].
      injection E as <- <- <-. apply (IH r' msgs' calls' eq_refl).
Qed.

(** One probe: one socket, the fixed timeout, at most one datagram, always
    the default request and always to the probed address. *)
Lemma probe_trace_props (script : sock_script) (address : string) r msgs calls :
  probe_trace script address = (r, msgs, calls) ->
  no_verdict msgs
  /\ sockets_opened calls = 1%nat
  /\ Forall (fun q => q = _default_timeout) (timeouts_set calls)
  /\ Forall (fun p => p = payload default_echo_request) (packets_sent calls)
  /\ (forall b, r = Ok b ->
        sent_to calls = [address]
        /\ packets_sent calls = [payload default_echo_request]
        /\ timeouts_set calls = [_default_timeout]).
Proof.
  unfold probe_trace. intros E.
  destruct (on_socket script) as [e|].
  { injection E as <- <- <-. repeat split; try constructor; discriminate. }
  destruct (on_sendto script) as [e|].
  { injection E as <- <- <-. repeat split; repeat constructor; discriminate. }
  destruct (recv_trace _ _ _ _) as [[r' msgs'] calls'] eqn:R.
  apply recv_trace_props in R. destruct R as (Hm & Hs & Ht & Hp & Ho).
  injection E as <- <- <-.
  cbn [app sockets_opened timeouts_set packets_sent sent_to].
  rewrite Hs, Ht, Hp, Ho.
  repeat split; repeat constructor; assumption.
Qed.

(** ** The scan of one subnet *)

Lemma subnet_queue_unfold (subnet : string) (suffix_list : list string) (w : World) :
  subnet_queue subnet (Some suffix_list) w
  = try_except (scan_loop (stripped subnet) suffix_list suffix_list)
      is_KeyboardInterrupt (raise (SystemExit 1))
      (extend w [MsgScanning subnet] []).
Proof.
  unfold subnet_queue. unfold bind at 1. rewrite print_extend. reflexivity.
Qed.

(** The test that guards the "not live" line compares a [str] with a
    [list]; it never holds. *)
Lemma last_suffix_test_false (suffix : string) (suffix_list : list string) :
  py_eq (PyStr suffix) (PyList (removelast suffix_list)) = false.
Proof. reflexivity. Qed.

(** While the probes answer false the loop goes on to the next suffix,
    printing no verdict and enqueuing nothing. *)
Lemma scan_loop_false_prefix (subnet : string) (suffix_list : list string) :
  forall (pre rest : list string) (w : World),
  (forall x, In x pre -> probe_outcome (net w) (candidate subnet x) = Ok false) ->
  exists msgs calls,
    scan_loop subnet suffix_list (pre ++ rest) w
    = scan_loop subnet suffix_list rest (extend w msgs calls)
    /\ no_verdict msgs
    /\ sent_to calls = map (candidate subnet) pre
    /\ sockets_opened calls = length pre
    /\ Forall (fun q => q = _default_timeout) (timeouts_set calls).
Proof.
  induction pre as [|x pre IH]; intros rest w Hpre.
  - exists [], []. rewrite extend_nil. repeat split. constructor.
  - cbn [app scan_loop]. unfold bind at 1.
    pose proof (send_ping_outcome (candidate subnet x) w) as Hout.
    rewrite (Hpre x (or_introl eq_refl)) in Hout.
    rewrite send_ping_trace in Hout |- *.
    destruct (probe_trace _ _) as [[r m] c] eqn:T. cbn [fst] in Hout. subst r.
    destruct (probe_trace_props _ _ _ _ _ T) as (Hm & Ho & Ht & _ & Hok).
    destruct (Hok false eq_refl) as (Hs & _).
    rewrite last_suffix_test_false. unfold bind at 1, ret at 1.
    destruct (IH rest (extend w m c)) as (msgs & calls & E & Hm' & Hs' & Ho' & Ht').
    { intros y Hy. cbn [net extend]. apply Hpre. right. exact Hy. }
    exists (m ++ msgs), (c ++ calls). rewrite E, extend_extend.
    split; [reflexivity|]. split; [apply no_verdict_app; assumption|].
    rewrite sent_to_app, sockets_opened_app, timeouts_set_app, Hs, Hs', Ho, Ho'.
    split; [reflexivity|]. split; [reflexivity|].
    apply Forall_app. split; assumption.
Qed.

Lemma scan_loop_live (subnet : string) (suffix_list : list string)
  (s : string) (post : list string) (w : World) :
  probe_outcome (net w) (candidate subnet s) = Ok true ->
  exists msgs calls,
    scan_loop subnet suffix_list (s :: post) w
    = writer_queue_put (subnet ++ "/24" ++ String "010" "")%string
        (extend w (msgs ++ [MsgLive subnet]) calls)
    /\ no_verdict msgs
    /\ sent_to calls = [candidate subnet s]
    /\ sockets_opened calls = 1%nat.
Proof.
  intros Hlive. cbn [scan_loop]. unfold bind at 1.
  pose proof (send_ping_outcome (candidate subnet s) w) as Hout.
  rewrite Hlive in Hout. rewrite send_ping_trace in Hout |- *.
  destruct (probe_trace _ _) as [[r m] c] eqn:T. cbn [fst] in Hout. subst r.
  destruct (probe_trace_props _ _ _ _ _ T) as (Hm & Ho & _ & _ & Hok).
  destruct (Hok true eq_refl) as (Hs & _).
  exists m, c. unfold bind at 1. rewrite print_extend, extend_extend, app_nil_r.
  auto.
Qed.

Lemma scan_loop_raises (subnet : string) (suffix_list : list string)
  (s : string) (post : list string) (w : World) (e : exn) :
  probe_outcome (net w) (candidate subnet s) = Raise e ->
  exists msgs calls,
    scan_loop subnet suffix_list (s :: post) w = (Raise e, extend w msgs calls)
    /\ no_verdict msgs
    /\ sockets_opened calls = 1%nat.
Proof.
  intros Hraise. cbn [scan_loop]. unfold bind at 1.
  pose proof (send_ping_outcome (candidate subnet s) w) as Hout.
  rewrite Hraise in Hout. rewrite send_ping_trace in Hout |- *.
  destruct (probe_trace _ _) as [[r m] c] eqn:T. cbn [fst] in Hout. subst r.
  destruct (probe_trace_props _ _ _ _ _ T) as (Hm & Ho & _).
  exists m, c. auto.
Qed.

(** ** The scan of one subnet: claims C5 and C3 *)

(** C5. [subnet_queue] probes the candidate addresses in the order of the
    suffix list and stops at the first probe that returns true: when the
    probes of the suffixes [pre] return false and the probe of the next
    suffix [s] returns true, the datagrams go to the candidates of
    [pre ++ [s]], in that order and to no other address, one socket is opened
    per probe ([length pre + 1] probes in all), the last line printed says
    that the subnet is live, and the subnet is enqueued for the writer.  The
    suffixes [post] after [s] are not probed. *)
Theorem C5_short_circuit (subnet : string) (pre post : list string) (s : string)
  (w : World) :
  (forall x, In x pre ->
     probe_outcome (net w) (candidate (stripped subnet) x) = Ok false) ->
  probe_outcome (net w) (candidate (stripped subnet) s) = Ok true ->
  exists msgs calls,
    fst (subnet_queue subnet (Some (pre ++ s :: post)) w) = Ok tt
    /\ stdout (snd (subnet_queue subnet (Some (pre ++ s :: post)) w))
       = stdout w ++ MsgScanning subnet :: msgs ++ [MsgLive (stripped subnet)]
    /\ no_verdict msgs
    /\ sock_calls (snd (subnet_queue subnet (Some (pre ++ s :: post)) w))
       = sock_calls w ++ calls
    /\ sent_to calls = map (candidate (stripped subnet)) (pre ++ [s])
    /\ sockets_opened calls = (length pre + 1)%nat
    /\ writer_queue (snd (subnet_queue subnet (Some (pre ++ s :: post)) w))
       = writer_queue w ++ [(stripped subnet ++ "/24" ++ String "010" "")%string].
Proof.
  intros Hpre Hlive. rewrite subnet_queue_unfold.
  set (w1 := extend w [MsgScanning subnet] []).
  destruct (scan_loop_false_prefix (stripped subnet) (pre ++ s :: post)
              pre (s :: post) w1 Hpre)
    as (m1 & c1 & E1 & Hm1 & Hs1 & Ho1 & _).
  destruct (scan_loop_live (stripped subnet) (pre ++ s :: post) s post
              (extend w1 m1 c1) Hlive)
    as (m2 & c2 & E2 & Hm2 & Hs2 & Ho2).
  exists (m1 ++ m2), (c1 ++ c2).
  unfold try_except. rewrite E1, E2. subst w1. rewrite !extend_extend.
  cbn [fst snd writer_queue_put stdout sock_calls writer_queue extend app].
  rewrite <- !app_assoc. cbn [app].
  split; [reflexivity|]. split; [reflexivity|].
  split; [apply no_verdict_app; assumption|]. split; [reflexivity|].
  rewrite sent_to_app, sockets_opened_app, map_app, Hs1, Hs2, Ho1, Ho2.
  auto.
Qed.

(** The example of the specification: suffixes ".1", ".2", ".3" and a network
    on which only ".2" answers. Two datagrams are sent and two sockets
    opened; "10.0.0.3" is not probed. *)
Lemma C5_short_circuit_witness :
  exists msgs calls,
    fst (subnet_queue "10.0.0.0/24" (Some ([".1"] ++ ".2" :: [".3"]))
           (world0 only_host_2)) = Ok tt
    /\ stdout (snd (subnet_queue "10.0.0.0/24" (Some ([".1"] ++ ".2" :: [".3"]))
                      (world0 only_host_2)))
       = [] ++ MsgScanning "10.0.0.0/24" :: msgs ++ [MsgLive "10.0.0.0"]
    /\ no_verdict msgs
    /\ sock_calls (snd (subnet_queue "10.0.0.0/24" (Some ([".1"] ++ ".2" :: [".3"]))
                          (world0 only_host_2)))
       = [] ++ calls
    /\ sent_to calls = ["10.0.0.1"; "10.0.0.2"]%string
    /\ sockets_opened calls = 2%nat
    /\ writer_queue (snd (subnet_queue "10.0.0.0/24" (Some ([".1"] ++ ".2" :: [".3"]))
                            (world0 only_host_2)))
       = [] ++ [String.append "10.0.0.0/24" (String "010" "")].
Proof.
  apply (C5_short_circuit "10.0.0.0/24" [".1"%string] [".3"%string] ".2"
           (world0 only_host_2)).
  - intros x [<-|[]]. reflexivity.
  - reflexivity.
Defined.

(** When every probe of the list returns false, [subnet_queue] returns
    normally, enqueues nothing and prints no verdict at all: neither "live"
    nor "not live". *)
Lemma subnet_queue_all_false (subnet : string) (suffix_list : list string) (w : World) :
  (forall x, In x suffix_list ->
     probe_outcome (net w) (candidate (stripped subnet) x) = Ok false) ->
  exists msgs calls,
    subnet_queue subnet (Some suffix_list) w
    = (Ok tt, extend w (MsgScanning subnet :: msgs) calls)
    /\ no_verdict msgs
    /\ sent_to calls = map (candidate (stripped subnet)) suffix_list.
Proof.
  intros Hall. rewrite subnet_queue_unfold.
  set (w1 := extend w [MsgScanning subnet] []).
  destruct (scan_loop_false_prefix (stripped subnet) suffix_list suffix_list [] w1)
    as (m & c & E & Hm & Hs & _); [exact Hall|].
  rewrite app_nil_r in E. exists m, c.
  unfold try_except. rewrite E. subst w1. rewrite extend_extend.
  cbn [scan_loop ret app]. auto.
Qed.

(** C3 (the code departs from the claim). One subnet, one suffix, nobody
    answers: the scan enqueues nothing, as claimed, but the line
    "[-] Subnet 10.0.0.0/24 is not live" is not printed.  The run prints the
    scanning line and the probe's timeout line only, because the test before
    the "not live" line, [suffix == suffix_list[:-1]], never holds. *)
Theorem C3_not_live_not_reported :
  let w' := snd (subnet_queue "10.0.0.0/24" (Some [".1"%string]) (world0 nobody)) in
  fst (subnet_queue "10.0.0.0/24" (Some [".1"%string]) (world0 nobody)) = Ok tt
  /\ probe_outcome nobody "10.0.0.1" = Ok false
  /\ writer_queue w' = []
  /\ stdout w' = [MsgScanning "10.0.0.0/24"; MsgTimeout "10.0.0.1"]
  /\ ~ In (MsgNotLive "10.0.0.0") (stdout w')
  /\ (forall suffix suffix_list,
        py_eq (PyStr suffix) (PyList (removelast suffix_list)) = false).
Proof.
  cbv zeta. split; [reflexivity|]. split; [reflexivity|].
  split; [reflexivity|]. split; [reflexivity|]. split.
  - cbn. intros [H|[H|[]]]; discriminate H.
  - intros suffix suffix_list. apply last_suffix_test_false.
Qed.

(** ** The timeout of the probe: claim C2 *)

(** C2 (the code departs from the claim). [main] stores the timeout asked
    for on the command line in the global [timeout], and [send_ping] does not
    read it: whatever the global holds, the only timeout a probe sets on its
    socket is [_default_timeout], 2 seconds.  With [-t 5] the run below sets a
    timeout of 2 seconds on its one socket. *)
Theorem C2_configured_timeout_not_applied :
  (forall (t : Q) (address : string) (w : World),
     exists msgs calls,
       snd (send_ping address (snd (set_timeout t w)))
       = extend (snd (set_timeout t w)) msgs calls
       /\ Forall (fun q => q = _default_timeout) (timeouts_set calls))
  /\ (let w' := snd (run (mkArgs 5 1) [("10.0.0.0/24", [".1"])]%string
                       (world0 nobody)) in
      timeout w' = inject_Z 5
      /\ timeouts_set (sock_calls w') = [_default_timeout]
      /\ ~ (_default_timeout == inject_Z 5)%Q).
Proof.
  split.
  - intros t address w. rewrite send_ping_trace.
    destruct (probe_trace _ _) as [[r m] c] eqn:T.
    destruct (probe_trace_props _ _ _ _ _ T) as (_ & _ & Ht & _).
    exists m, c. auto.
  - cbv zeta. split; [reflexivity|]. split; [reflexivity|]. discriminate.
Qed.

(** ** The request that is sent and the replies that are accepted: claim C10 *)

Lemma recv_trace_early (address : string) (expected : Z) (start_time : Q)
  (early rest : list recv_event) :
  forallb (early_timeout start_time) early = true ->
  fst (fst (recv_trace address expected start_time (early ++ rest)))
  = fst (fst (recv_trace address expected start_time rest)).
Proof.
  induction early as [|ev early IH]; intros Hearly; [reflexivity|].
  cbn [forallb] in Hearly. apply andb_true_iff in Hearly.
  destruct Hearly as [Hev Hearly].
  destruct ev as [packet addr | e clock]; [discriminate|].
  destruct e; try discriminate. cbn [early_timeout] in Hev.
  apply negb_true_iff in Hev.
  cbn [app recv_trace is_socket_timeout]. rewrite Hev.
  specialize (IH Hearly).
  destruct (recv_trace _ _ _ (early ++ rest)) as [[r m] c].
  exact IH.
Qed.

Lemma probe_outcome_recv (network : string -> sock_script) (address : string) :
  on_socket (network address) = None ->
  on_sendto (network address) = None ->
  probe_outcome network address
  = fst (fst (recv_trace address 0 (start_clock (network address))
                (recv_events (network address)))).
Proof.
  intros H1 H2. unfold probe_outcome. rewrite send_ping_trace.
  cbn [net world0]. unfold probe_trace. rewrite H1, H2.
  destruct (recv_trace _ _ _ _) as [[r m] c]. reflexivity.
Qed.

(** C10. Every Echo Request that [send_ping] sends is the default packet:
    whatever the address and whatever the network does (also when nobody
    answers, or when a call raises), the request is [ICMP_ECHO()], with
    identifier 0, sequence number 0, no payload and checksum 0xF7FF; every
    packet passed to [sendto] is that one and goes to the probed address, and
    one is passed as soon as the socket could be opened.  And the replies that
    a probe accepts are those with type 0, code 0 and identifier 0: when the
    first datagram that comes back (possibly after early timeouts) has the
    eight bytes [t c k1 k0 i1 i0 s1 s0] at offsets 20 to 27, the probe returns
    true exactly when [t] is 0, [c] is 0 and the big-endian number [i1 i0] is
    0, whatever the address, the checksum bytes and the sequence bytes. *)
Theorem C10_default_request (address : string) (w : World) :
  ICMP_ECHO 0 0 [] = Ok default_echo_request
  /\ icmp_id default_echo_request = 0
  /\ sequence default_echo_request = 0
  /\ data default_echo_request = []
  /\ checksum default_echo_request = 0xF7FF
  /\ (exists msgs calls,
        send_ping address w = (probe_outcome (net w) address, extend w msgs calls)
        /\ Forall (fun p => p = payload default_echo_request) (packets_sent calls)
        /\ Forall (fun host => host = address) (sent_to calls)
        /\ (on_socket (net w address) = None ->
            packets_sent calls = [payload default_echo_request]
            /\ sent_to calls = [address]))
  /\ (forall early later packet addr t c k1 k0 i1 i0 s1 s0,
        on_socket (net w address) = None ->
        on_sendto (net w address) = None ->
        recv_events (net w address) = early ++ Datagram packet addr :: later ->
        forallb (early_timeout (start_clock (net w address))) early = true ->
        slice packet 20 28 = [t; c; k1; k0; i1; i0; s1; s0] ->
        fst (send_ping address w)
        = Ok ((byte_val t =? 0) && (byte_val c =? 0)
              && (256 * byte_val i1 + byte_val i0 =? 0))).
Proof.
  do 5 (split; [reflexivity|]). split.
  - pose proof (send_ping_outcome address w) as Hout.
    rewrite send_ping_trace in Hout |- *.
    destruct (probe_trace (net w address) address) as [[r m] c] eqn:T.
    cbn [fst] in Hout. subst r. exists m, c. split; [reflexivity|].
    unfold probe_trace in T. destruct (on_socket (net w address)).
    + injection T as _ _ <-. cbn [packets_sent sent_to].
      split; [constructor|]. split; [constructor|]. discriminate.
    + destruct (on_sendto (net w address)).
      * injection T as _ _ <-. cbn [packets_sent sent_to].
        split; [repeat constructor|]. split; [repeat constructor|]. auto.
      * destruct (recv_trace _ _ _ _) as [[r' m'] c'] eqn:R.
        apply recv_trace_props in R. destruct R as (_ & Hs & _ & Hp & _).
        injection T as _ _ <-. cbn [app packets_sent sent_to]. rewrite Hs, Hp.
        split; [repeat constructor|]. split; [repeat constructor|]. auto.
  - intros early later packet addr t c k1 k0 i1 i0 s1 s0 H1 H2 Hev Hearly Hhdr.
    rewrite send_ping_outcome, probe_outcome_recv by assumption.
    rewrite Hev, recv_trace_early by assumption.
    cbn [recv_trace]. rewrite Hhdr, validate_echo_response_header, unpack_H_val.
    destruct ((byte_val t =? 0) && (byte_val c =? 0)
              && (256 * byte_val i1 + byte_val i0 =? 0)); reflexivity.
Qed.

(** A probe of a host that never answers sends the default request, and a
    probe of a host that answers with type 0, code 0, identifier 0 (and a
    checksum field of 0xFFFF) returns true. *)
Lemma C10_default_request_witness :
  (exists msgs calls,
     send_ping "10.0.0.1" (world0 nobody)
     = (Ok false, extend (world0 nobody) msgs calls)
     /\ packets_sent calls = [[x08; x00; xf7; xff; x00; x00; x00; x00]]
     /\ sent_to calls = ["10.0.0.1"%string])
  /\ fst (send_ping "10.0.0.2" (world0 only_host_2)) = Ok true.
Proof.
  split.
  - destruct (C10_default_request "10.0.0.1" (world0 nobody))
      as (_ & _ & _ & _ & _ & (msgs & calls & E & _ & _ & Hsent) & _).
    destruct (Hsent eq_refl) as [Hp Hs].
    exists msgs, calls. split; [exact E|]. split; [exact Hp | exact Hs].
  - destruct (C10_default_request "10.0.0.2" (world0 only_host_2))
      as (_ & _ & _ & _ & _ & _ & Haccept).
    exact (Haccept [] [] (repeat x00 20 ++ [x00; x00; xff; xff; x00; x00; x00; x00])
             "('10.0.0.2', 0)" x00 x00 xff xff x00 x00 x00 x00
             eq_refl eq_refl eq_refl eq_refl eq_refl).
Defined.

(** ** Socket errors: claim C4 *)

Lemma probe_raises (network : string -> sock_script) (address what : string) :
  raises_socket_error (network address) what ->
  probe_outcome network address = Raise (OSError what).
Proof.
  intros [H | [[H1 H2] | (H1 & H2 & early & clock & later & Hev & Hearly)]].
  - unfold probe_outcome. rewrite send_ping_trace. cbn [net world0].
    unfold probe_trace. rewrite H. reflexivity.
  - unfold probe_outcome. rewrite send_ping_trace. cbn [net world0].
    unfold probe_trace. rewrite H1, H2. reflexivity.
  - rewrite probe_outcome_recv by assumption.
    rewrite Hev, recv_trace_early by assumption. reflexivity.
Qed.

(** Whatever the probes do, a scan only adds lines to the standard output
    and leaves the network as it is. *)
Lemma scan_loop_grows (subnet : string) (suffix_list : list string) :
  forall (remaining : list string) (w : World) r w',
  scan_loop subnet suffix_list remaining w = (r, w') ->
  net w' = net w /\ exists msgs, stdout w' = stdout w ++ msgs.
Proof.
  induction remaining as [|x remaining IH]; intros w r w' E.
  - injection E as <- <-. split; [reflexivity|]. exists [].
    rewrite app_nil_r. reflexivity.
  - cbn [scan_loop] in E. unfold bind at 1 in E. rewrite send_ping_trace in E.
    destruct (probe_trace _ _) as [[[[|]|e] m] c].
    + unfold bind at 1 in E. rewrite print_extend, extend_extend in E.
      unfold writer_queue_put in E. injection E as <- <-.
      split; [reflexivity|]. exists (m ++ [MsgLive subnet]). reflexivity.
    + rewrite last_suffix_test_false in E. unfold bind at 1, ret at 1 in E.
      apply IH in E. destruct E as [Hn [msgs Hs]].
      split; [rewrite Hn; reflexivity|].
      exists (m ++ msgs). rewrite Hs. cbn [stdout extend].
      rewrite app_assoc. reflexivity.
    + injection E as <- <-. split; [reflexivity|]. exists m. reflexivity.
Qed.

Lemma subnet_queue_grows (subnet : string) (suffix_list : list string) (w : World) :
  net (snd (subnet_queue subnet (Some suffix_list) w)) = net w
  /\ exists msgs,
       stdout (snd (subnet_queue subnet (Some suffix_list) w))
       = stdout w ++ MsgScanning subnet :: msgs.
Proof.
  rewrite subnet_queue_unfold. unfold try_except.
  destruct (scan_loop _ _ _ _) as [r w'] eqn:E.
  apply scan_loop_grows in E. destruct E as [Hn [msgs Hs]].
  assert (G : net w' = net w /\ stdout w' = stdout w ++ MsgScanning subnet :: msgs).
  { split; [exact Hn|]. rewrite Hs. cbn [stdout extend].
    rewrite <- app_assoc. reflexivity. }
  destruct r as [u|e]; [|destruct (is_KeyboardInterrupt e)]; cbn [raise snd];
    (split; [apply G | exists msgs; apply G]).
Qed.

(** The pool runs every task and never raises: what a task raises stays in
    its future. *)
Lemma executor_map_never_raises (subnet_list : list (string * list string)) :
  forall (w : World),
  fst (executor_map subnet_list w) = Ok tt
  /\ exists msgs,
       stdout (snd (executor_map subnet_list w)) = stdout w ++ msgs
       /\ forall subnet hosts, In (subnet, hosts) subnet_list ->
            In (MsgScanning subnet) msgs.
Proof.
  induction subnet_list as [|[subnet hosts] rest IH]; intros w.
  - split; [reflexivity|]. exists []. cbn. rewrite app_nil_r.
    split; [reflexivity|]. intros ? ? [].
  - cbn [executor_map].
    destruct (subnet_queue_grows subnet hosts w) as [_ [m1 H1]].
    destruct (subnet_queue subnet (Some hosts) w) as [r w1]. cbn [snd] in H1.
    destruct (IH w1) as [Hok [m2 [H2 Hin]]].
    split; [exact Hok|].
    exists (MsgScanning subnet :: m1 ++ m2). split.
    + rewrite H2, H1, <- app_assoc. reflexivity.
    + intros subnet' hosts' [Heq|Hrest].
      * injection Heq as <- _. left. reflexivity.
      * right. apply in_or_app. right. exact (Hin _ _ Hrest).
Qed.

(** With valid arguments and at least one subnet, [main] returns normally
    after printing its last line, whatever happened in the tasks. *)
Lemma main_completes (a : args) (subnet_list : list (string * list string)) (w : World) :
  1 <= args_timeout a -> 1 <= args_threads a <= _max_threads ->
  subnet_list <> [] ->
  fst (run a subnet_list w) = 0
  /\ exists msgs,
       stdout (snd (run a subnet_list w)) = stdout w ++ msgs ++ [MsgFinished]
       /\ forall subnet hosts, In (subnet, hosts) subnet_list ->
            In (MsgScanning subnet) msgs.
Proof.
  intros Ht Hth Hne. unfold run.
  destruct (main a subnet_list w) as [r w3] eqn:E. unfold main in E.
  replace (args_timeout a <? 1) with false in E by (symmetry; apply Z.ltb_ge; lia).
  replace (args_threads a <? 1) with false in E by (symmetry; apply Z.ltb_ge; lia).
  replace (args_threads a >? _max_threads) with false in E
    by (symmetry; rewrite Z.gtb_ltb; apply Z.ltb_ge; lia).
  replace (Z.min (args_threads a) (Z.of_nat (length subnet_list)) <=? 0)
    with false in E.
  2:{ symmetry. apply Z.leb_gt. destruct subnet_list; [congruence|].
      cbn [length]. lia. }
  unfold bind at 1 in E. unfold set_timeout at 1 in E.
  unfold bind at 1, ret at 1 in E. unfold bind at 1 in E.
  set (w1 := mkWorld _ _ _ _ _ _) in E.
  destruct (executor_map_never_raises subnet_list w1) as [Hok [msgs [Hs Hin]]].
  destruct (executor_map subnet_list w1) as [r2 w2]. cbn [fst snd] in Hok, Hs.
  subst r2. unfold bind at 1, writer_queue_join at 1 in E.
  rewrite print_extend in E. injection E as <- <-.
  cbn [fst snd exit_status stdout extend]. split; [reflexivity|].
  exists msgs. split; [|exact Hin].
  rewrite Hs. subst w1. cbn [stdout]. rewrite <- app_assoc. reflexivity.
Qed.

(** C4, as the code has it. A socket error other than a receive timeout is
    not turned into "not live": [send_ping] raises it, and so does
    [subnet_queue], which ends that subnet's scan with no verdict printed and
    nothing enqueued.  It is not fatal to the run: the exception stays in the
    future of that task, [main] never reads it, every subnet of the list is
    still scanned, the last line is printed and the exit status is zero. *)
Theorem C4_socket_error_not_fatal (a : args)
  (subnet_list : list (string * list string))
  (subnet : string) (pre post : list string) (s what : string) (w : World) :
  1 <= args_timeout a -> 1 <= args_threads a <= _max_threads ->
  In (subnet, pre ++ s :: post) subnet_list ->
  (forall x, In x pre ->
     probe_outcome (net w) (candidate (stripped subnet) x) = Ok false) ->
  raises_socket_error (net w (candidate (stripped subnet) s)) what ->
  fst (send_ping (candidate (stripped subnet) s) w) = Raise (OSError what)
  /\ fst (subnet_queue subnet (Some (pre ++ s :: post)) w) = Raise (OSError what)
  /\ writer_queue (snd (subnet_queue subnet (Some (pre ++ s :: post)) w))
     = writer_queue w
  /\ (exists msgs,
        stdout (snd (subnet_queue subnet (Some (pre ++ s :: post)) w))
        = stdout w ++ MsgScanning subnet :: msgs
        /\ no_verdict msgs)
  /\ fst (run a subnet_list w) = 0
  /\ (exists msgs,
        stdout (snd (run a subnet_list w)) = stdout w ++ msgs ++ [MsgFinished]
        /\ forall subnet' hosts, In (subnet', hosts) subnet_list ->
             In (MsgScanning subnet') msgs).
Proof.
  intros Ht Hth Hin Hpre Herr.
  pose proof (probe_raises (net w) _ _ Herr) as Hraise.
  split; [rewrite send_ping_outcome; exact Hraise|].
  assert (Hsq : exists msgs calls,
            subnet_queue subnet (Some (pre ++ s :: post)) w
            = (Raise (OSError what), extend w (MsgScanning subnet :: msgs) calls)
            /\ no_verdict msgs).
  { rewrite subnet_queue_unfold.
    set (w1 := extend w [MsgScanning subnet] []).
    destruct (scan_loop_false_prefix (stripped subnet) (pre ++ s :: post)
                pre (s :: post) w1 Hpre)
      as (m1 & c1 & E1 & Hm1 & _).
    destruct (scan_loop_raises (stripped subnet) (pre ++ s :: post) s post
                (extend w1 m1 c1) (OSError what) Hraise)
      as (m2 & c2 & E2 & Hm2 & _).
    exists (m1 ++ m2), (c1 ++ c2).
    unfold try_except. rewrite E1, E2. subst w1. rewrite !extend_extend.
    cbn [is_KeyboardInterrupt app]. split; [reflexivity|].
    apply no_verdict_app; assumption. }
  destruct Hsq as (msgs & calls & E & Hm). rewrite E. cbn [fst snd].
  split; [reflexivity|]. split; [reflexivity|].
  split; [exists msgs; split; [reflexivity | exact Hm]|].
  apply main_completes; try assumption.
  intros ->. exact Hin.
Qed.

Lemma C4_socket_error_not_fatal_witness :
  fst (send_ping "10.0.0.1" (world0 not_permitted))
  = Raise (OSError "[Errno 1] Operation not permitted")
  /\ fst (subnet_queue "10.0.0.0/24" (Some [".1"; ".2"])
            (world0 not_permitted))
     = Raise (OSError "[Errno 1] Operation not permitted")
  /\ writer_queue (snd (subnet_queue "10.0.0.0/24" (Some [".1"; ".2"])
                          (world0 not_permitted))) = []
  /\ (exists msgs,
        stdout (snd (subnet_queue "10.0.0.0/24" (Some [".1"; ".2"])
                       (world0 not_permitted)))
        = [] ++ MsgScanning "10.0.0.0/24" :: msgs
        /\ no_verdict msgs)
  /\ fst (run (mkArgs 2 1)
            [("10.0.0.0/24", [".1"; ".2"]); ("10.0.1.0/24", [".1"])]%string
            (world0 not_permitted)) = 0
  /\ (exists msgs,
        stdout (snd (run (mkArgs 2 1)
                       [("10.0.0.0/24", [".1"; ".2"]); ("10.0.1.0/24", [".1"])]%string
                       (world0 not_permitted)))
        = [] ++ msgs ++ [MsgFinished]
        /\ forall subnet' hosts,
             In (subnet', hosts)
                [("10.0.0.0/24", [".1"; ".2"]); ("10.0.1.0/24", [".1"])]%string ->
             In (MsgScanning subnet') msgs).
Proof.
  apply (C4_socket_error_not_fatal (mkArgs 2 1)
           [("10.0.0.0/24", [".1"; ".2"]); ("10.0.1.0/24", [".1"])]%string
           "10.0.0.0/24" [] [".2"%string] ".1"
           "[Errno 1] Operation not permitted" (world0 not_permitted)).
  - cbn. lia.
  - cbn. unfold _max_threads. lia.
  - left. reflexivity.
  - intros x [].
  - left. reflexivity.
Defined.

(** C4 as the specification states it does not hold: on a host where raw
    sockets are not permitted the probe raises the socket error, and the run
    still ends with exit status zero. *)
Lemma C4_counterexample :
  ~ (fst (send_ping "10.0.0.1" (world0 not_permitted))
     = Raise (OSError "[Errno 1] Operation not permitted") ->
     fst (run (mkArgs 2 1) [("10.0.0.0/24", [".1"])]%string (world0 not_permitted))
     <> 0).
Proof.
  intros H. apply H; reflexivity.
Qed.

(** ** The writer thread: claim C7 *)

Lemma writer_inv_init : writer_inv Writer.init.
Proof.
  unfold writer_inv. cbn. split; [auto|]. split; [|auto].
  split; [discriminate|]. intros [H|[r H]]; discriminate H.
Qed.

(** The handle is open and the main thread is at a point inside the block. *)
Ltac handle_stays_open :=
  split; [intros H; discriminate H | intros [H|[? H]]; discriminate H].

(** The handle was just closed. *)
Ltac handle_now_closed :=
  split; [intros _; first [left; reflexivity | right; eexists; reflexivity]
         | reflexivity].

(** The first part of the invariant across a [close()]: what was buffered
    is in the file. *)
Ltac across_close Hw w :=
  destruct w; cbn in Hw |- *;
  [ destruct Hw as (? & ? & ?); subst; rewrite ?app_nil_r; auto
  | destruct Hw as (? & ? & ?); subst; rewrite ?app_nil_r; auto
  | destruct Hw as (? & _ & ?); subst; rewrite <- ?app_assoc; auto
  | destruct Hw as (? & ? & ?); subst; rewrite ?app_nil_r; auto
  | exact Hw ].

(** The first part of the invariant across a [put]. *)
Ltac across_put Hw w :=
  destruct w; cbn in Hw |- *;
  [ destruct Hw as (Hu & Hb & He); rewrite length_app, Hu, He, app_assoc;
    cbn; repeat split; [lia | exact Hb]
  | destruct Hw as (Hu & Hb & He); rewrite length_app, Hu, He;
    cbn; rewrite <- app_assoc; cbn; repeat split; [lia | exact Hb]
  | destruct Hw as (Hu & Hb & He); rewrite length_app, Hu, He;
    cbn; rewrite <- !app_assoc; repeat split; [lia | exact Hb]
  | destruct Hw as (Hu & Hb & He); rewrite length_app, Hu, He, app_assoc;
    cbn; repeat split; [lia | exact Hb]
  | destruct Hw as [n Hn]; exists (S n); rewrite Hn; reflexivity ].

Lemma writer_inv_step (s s' : Writer.state) :
  writer_inv s -> Writer.step s s' -> writer_inv s'.
Proof.
  intros (Hw & Hh & Hj) Hstep. unfold writer_inv in *.
  destruct Hstep; cbn [Writer.wpc Writer.mpc Writer.handle_open Writer.queue
                       Writer.unfinished_tasks Writer.buffer Writer.disk
                       Writer.enqueued] in *.
  - (* the executor is created *)
    split; [exact Hw|]. split; [handle_stays_open|].
    intros [H|[H|H]]; discriminate H.
  - (* the executor is refused *)
    split; [across_close Hw w|]. split; [handle_now_closed|].
    intros _. apply Hj. left. reflexivity.
  - (* put *)
    split; [across_put Hw w|]. split; [exact Hh|].
    intros [H|[H|H]]; discriminate H.
  - (* the pool is done *)
    split; [exact Hw|]. split; [handle_stays_open|].
    intros [H|[H|H]]; discriminate H.
  - (* get *)
    destruct Hw as (Hu & Hb & He). cbn in Hu.
    split; [auto|]. split; [exact Hh|].
    intros H. specialize (Hj H). lia.
  - (* write *)
    destruct Hw as (Hu & Hb & He). subst b. cbn.
    split; [|split; [exact Hh | exact Hj]].
    split; [exact Hu|]. split; [eauto | exact He].
  - (* write raises *)
    destruct Hw as (Hu & _). split; [eauto|]. split; [exact Hh | exact Hj].
  - (* flush *)
    destruct Hw as (Hu & Hb & He).
    split; [|split; [exact Hh | exact Hj]].
    split; [exact Hu|]. split; [reflexivity|].
    rewrite He, app_assoc. reflexivity.
  - (* flush raises *)
    destruct Hw as (Hu & _). split; [eauto|]. split; [exact Hh | exact Hj].
  - (* task_done *)
    destruct Hw as (Hu & Hb & He).
    split; [|split; [exact Hh|]].
    + split; [lia|]. split; assumption.
    + intros H. specialize (Hj H). discriminate Hj.
  - (* join *)
    split; [exact Hw|]. split; [handle_stays_open | reflexivity].
  - (* close *)
    split; [across_close Hw w|]. split; [handle_now_closed|].
    intros _. apply Hj. right. left. reflexivity.
  - (* interrupt in the pool block *)
    split; [across_close Hw w|]. split; [handle_now_closed|].
    intros [H|[H|H]]; discriminate H.
  - (* interrupt elsewhere *)
    split; [across_close Hw w|]. split; [handle_now_closed|].
    intros [H'|[H'|H']]; discriminate H'.
  - (* put after an interrupt *)
    split; [across_put Hw w|]. split; [handle_now_closed|].
    intros [H|[H|H]]; discriminate H.
  - (* the workers are done after an interrupt *)
    split; [exact Hw|]. split; [handle_now_closed|].
    intros [H|[H|H]]; discriminate H.
Qed.

Lemma writer_inv_reachable (s : Writer.state) : Writer.reachable s -> writer_inv s.
Proof.
  induction 1 as [|s s' _ IH Hstep].
  - apply writer_inv_init.
  - exact (writer_inv_step s s' IH Hstep).
Qed.

(** C7, as the code has it. In every state that the writer, the workers
    and the main thread can reach together: (1) when the writer is about to
    take an item, is about to write one or has just flushed, nothing that was
    written is still unflushed; between a write and its flush exactly one line
    is (none if the handle was closed in between, which flushes it), so each
    write is flushed before the next item is taken.  (2) Once
    [writer_queue.join()] has returned the queue is empty and every line that
    was ever enqueued is in the file, in order; without an interrupt the
    handle is closed only after that.  (3) The handle is closed either that
    way or by a KeyboardInterrupt in the main thread, and an interrupt does
    not wait for the queue. *)
Theorem C7_flush_each_write_and_drain_before_close (s : Writer.state) :
  Writer.reachable s ->
  (Writer.wpc s = Writer.WGet \/ Writer.wpc s = Writer.WTaskDone
   \/ (exists line, Writer.wpc s = Writer.WWrite line) -> Writer.buffer s = [])
  /\ (Writer.wpc s = Writer.WFlush ->
      if Writer.handle_open s
      then exists line, Writer.buffer s = [line]
      else Writer.buffer s = [])
  /\ (Writer.mpc s = Writer.MJoined \/ Writer.mpc s = Writer.MClosed ->
      Writer.wpc s = Writer.WGet /\ Writer.queue s = [] /\ Writer.buffer s = []
      /\ Writer.disk s = Writer.enqueued s)
  /\ (Writer.handle_open s = false ->
      (Writer.mpc s = Writer.MClosed /\ Writer.queue s = []
       /\ Writer.disk s = Writer.enqueued s)
      \/ exists workers_running, Writer.mpc s = Writer.MAborted workers_running).
Proof.
  intros Hreach. destruct (writer_inv_reachable s Hreach) as (Hw & Hh & Hj).
  assert (Hdone : Writer.mpc s = Writer.MJoined \/ Writer.mpc s = Writer.MClosed ->
                  Writer.wpc s = Writer.WGet /\ Writer.queue s = []
                  /\ Writer.buffer s = [] /\ Writer.disk s = Writer.enqueued s).
  { intros H. specialize (Hj (or_intror H)).
    destruct (Writer.wpc s); try (destruct Hw as (Hu & _); congruence).
    - destruct Hw as (Hu & Hb & He). rewrite Hj in Hu.
      destruct (Writer.queue s); [|discriminate Hu].
      rewrite app_nil_r in He. auto.
    - destruct Hw as [n Hn]. congruence. }
  split; [|split; [|split; [exact Hdone|]]].
  - intros [H|[H|[line H]]]; rewrite H in Hw; apply Hw.
  - intros H. rewrite H in Hw. apply Hw.
  - intros H. apply Hh in H. destruct H as [H|H]; [left|right; exact H].
    split; [exact H|].
    destruct (Hdone (or_intror H)) as (_ & Hq & _ & Hd). auto.
Qed.

(** One line is enqueued, the pool ends, the writer takes the line, writes
    it, flushes and marks it done; only then does [join] return and the
    handle get closed, with the line in the file. *)
Lemma C7_flush_each_write_and_drain_before_close_witness :
  let line := String.append "10.0.0.0/24" (String "010" "") in
  let s := Writer.mkState [] 0 [] [line] false Writer.WGet Writer.MClosed [line] in
  (Writer.wpc s = Writer.WGet \/ Writer.wpc s = Writer.WTaskDone
   \/ (exists line, Writer.wpc s = Writer.WWrite line) -> Writer.buffer s = [])
  /\ (Writer.wpc s = Writer.WFlush ->
      if Writer.handle_open s
      then exists line, Writer.buffer s = [line]
      else Writer.buffer s = [])
  /\ (Writer.mpc s = Writer.MJoined \/ Writer.mpc s = Writer.MClosed ->
      Writer.wpc s = Writer.WGet /\ Writer.queue s = [] /\ Writer.buffer s = []
      /\ Writer.disk s = Writer.enqueued s)
  /\ (Writer.handle_open s = false ->
      (Writer.mpc s = Writer.MClosed /\ Writer.queue s = []
       /\ Writer.disk s = Writer.enqueued s)
      \/ exists workers_running, Writer.mpc s = Writer.MAborted workers_running).
Proof.
  intros line s. apply (C7_flush_each_write_and_drain_before_close s).
  eapply Writer.reach_step; [|apply (Writer.step_close [] 0 [] [line] Writer.WGet [line])].
  eapply Writer.reach_step; [|apply (Writer.step_join [] [] [line] Writer.WGet [line])].
  eapply Writer.reach_step;
    [|apply (Writer.step_task_done [] 0 [] [line] true Writer.MJoin [line])].
  eapply Writer.reach_step;
    [|apply (Writer.step_flush [] 1 [line] [] Writer.MJoin [line])].
  eapply Writer.reach_step;
    [|apply (Writer.step_write line [] 1 [] [] Writer.MJoin [line])].
  eapply Writer.reach_step;
    [|apply (Writer.step_get line [] 1 [] [] true Writer.MJoin [line])].
  eapply Writer.reach_step;
    [|apply (Writer.step_pool_done [line] 1 [] [] Writer.WGet [line])].
  eapply Writer.reach_step;
    [|apply (Writer.step_put [] 0 [] [] Writer.WGet [] line)].
  eapply Writer.reach_step;
    [|apply (Writer.step_pool_start [] 0 [] [] Writer.WGet [])].
  apply Writer.reach_init.
Defined.

(** C7 as the specification states it does not hold: a worker enqueues a
    line, a KeyboardInterrupt reaches the main thread in the pool block, and
    the handle is closed with the line still in the queue and not in the
    file. *)
Lemma C7_counterexample :
  ~ (forall s, Writer.reachable s -> Writer.handle_open s = false ->
       Writer.queue s = [] /\ Writer.disk s = Writer.enqueued s).
Proof.
  intros H.
  assert (Hr : Writer.reachable
                 (Writer.mkState ["10.0.0.0/24"%string] 1 [] [] false Writer.WGet
                    (Writer.MAborted true) ["10.0.0.0/24"%string])).
  { eapply Writer.reach_step;
      [|apply (Writer.step_interrupt_pool ["10.0.0.0/24"%string] 1 [] []
                 Writer.WGet ["10.0.0.0/24"%string])].
    eapply Writer.reach_step;
      [|apply (Writer.step_put [] 0 [] [] Writer.WGet [] "10.0.0.0/24")].
    eapply Writer.reach_step;
      [|apply (Writer.step_pool_start [] 0 [] [] Writer.WGet [])].
    apply Writer.reach_init. }
  destruct (H _ Hr eq_refl) as [Hq _]. discriminate Hq.
Qed.

(* ================================================================= *)
(** * Further properties of the code *)

(** ** The constructor *)

Lemma in_range16_spec (v : Z) : in_range16 v = true <-> 0 <= v <= 65535.
Proof.
  unfold in_range16. rewrite andb_true_iff, !Z.leb_le. reflexivity.
Qed.

Lemma pack_H_out_of_range (v : Z) : in_range16 v = false -> pack_H v = Raise struct_error.
Proof.
  unfold in_range16, pack_H. intros ->. reflexivity.
Qed.

Lemma ICMP_ECHO_out_of_range (id seq : Z) (payload_data : bytes) :
  in_range16 id && in_range16 seq = false ->
  ICMP_ECHO id seq payload_data = Raise struct_error.
Proof.
  intros H. unfold ICMP_ECHO, struct_pack.
  change (pack_B _ECHO_REQ) with (@Ok bytes [x08]).
  change (pack_B 0) with (@Ok bytes [x00]).
  change (pack_H 0) with (@Ok bytes [x00; x00]). cbn [rbind].
  destruct (in_range16 id) eqn:Hid.
  - cbn [andb] in H. rewrite (pack_H_out_of_range seq H).
    apply in_range16_spec in Hid.
    destruct (pack_H_ok id Hid) as (hi & lo & -> & _). reflexivity.
  - rewrite (pack_H_out_of_range id Hid). reflexivity.
Qed.

Lemma ICMP_ECHO_odd (id seq : Z) (payload_data : bytes) :
  0 <= id <= 65535 -> 0 <= seq <= 65535 ->
  Nat.odd (length payload_data) = true ->
  ICMP_ECHO id seq payload_data = Raise (IndexError (8 + length payload_data)).
Proof.
  intros Hid Hseq Hodd.
  destruct (struct_pack_ok 0 id seq ltac:(lia) Hid Hseq)
    as (z1 & z0 & d1 & d0 & e1 & e0 & P0 & _).
  unfold ICMP_ECHO. rewrite P0. cbn [rbind].
  rewrite checksum_loop_odd_length
    by (rewrite length_app, Nat.odd_add, Hodd; reflexivity).
  rewrite length_app. reflexivity.
Qed.

(** X1. Which of its three outcomes the constructor has: [struct.error] exactly
    when the identifier or the sequence number is outside 0..65535, whatever
    the payload; otherwise IndexError at index [8 + len(data)] exactly when
    the payload has odd length; otherwise a packet.  It raises nothing else. *)
Theorem ICMP_ECHO_outcome (id seq : Z) (payload_data : bytes) :
  match ICMP_ECHO id seq payload_data with
  | Ok pkt =>
      in_range16 id && in_range16 seq = true
      /\ Nat.even (length payload_data) = true
  | Raise struct_error => in_range16 id && in_range16 seq = false
  | Raise (IndexError i) =>
      in_range16 id && in_range16 seq = true
      /\ Nat.odd (length payload_data) = true
      /\ i = (8 + length payload_data)%nat
  | Raise _ => False
  end.
Proof.
  destruct (in_range16 id && in_range16 seq) eqn:Hr.
  - apply andb_true_iff in Hr. destruct Hr as [Hid Hseq].
    apply in_range16_spec in Hid, Hseq.
    destruct (Nat.even (length payload_data)) eqn:He.
    + destruct (ICMP_ECHO_even id seq payload_data Hid Hseq He)
        as (s & c1 & c0 & d1 & d0 & e1 & e0 & -> & _). auto.
    + assert (Ho : Nat.odd (length payload_data) = true)
        by (unfold Nat.odd; rewrite He; reflexivity).
      rewrite (ICMP_ECHO_odd id seq payload_data Hid Hseq Ho). auto.
  - rewrite (ICMP_ECHO_out_of_range id seq payload_data Hr). reflexivity.
Qed.

Lemma ICMP_ECHO_ok_inv (id seq : Z) (payload_data : bytes) (pkt : ICMP_ECHO_obj) :
  ICMP_ECHO id seq payload_data = Ok pkt ->
  0 <= id <= 65535 /\ 0 <= seq <= 65535 /\ Nat.even (length payload_data) = true.
Proof.
  intros E.
  destruct (in_range16 id && in_range16 seq) eqn:Hr.
  - apply andb_true_iff in Hr. destruct Hr as [Hid Hseq].
    apply in_range16_spec in Hid, Hseq.
    destruct (Nat.even (length payload_data)) eqn:He; [auto|].
    assert (Ho : Nat.odd (length payload_data) = true)
      by (unfold Nat.odd; rewrite He; reflexivity).
    rewrite (ICMP_ECHO_odd id seq payload_data Hid Hseq Ho) in E. discriminate E.
  - rewrite (ICMP_ECHO_out_of_range id seq payload_data Hr) in E. discriminate E.
Qed.

(** X2. What a built packet looks like, whatever the arguments were: the header
    has 8 bytes, so [len(pkt)] is [8 + len(data)]; the attributes are the
    arguments; [payload] is header followed by data; and the checksum field
    is in 0..65534, never 0xFFFF. *)
Theorem ICMP_ECHO_shape (id seq : Z) (payload_data : bytes) (pkt : ICMP_ECHO_obj) :
  ICMP_ECHO id seq payload_data = Ok pkt ->
  ICMP_ECHO_len pkt = (8 + length payload_data)%nat
  /\ length (header pkt) = 8%nat
  /\ icmp_id pkt = id /\ sequence pkt = seq /\ data pkt = payload_data
  /\ payload pkt = header pkt ++ payload_data
  /\ 0 <= checksum pkt <= 65534.
Proof.
  intros E. destruct (ICMP_ECHO_ok_inv _ _ _ _ E) as (Hid & Hseq & He).
  destruct (ICMP_ECHO_even id seq payload_data Hid Hseq He)
    as (s & c1 & c0 & d1 & d0 & e1 & e0 & E' & _ & _ & _ & Hs & _).
  rewrite E' in E. injection E as <-.
  assert (Hc : 0 <= 65535 - s <= 65534) by lia.
  unfold ICMP_ECHO_len. do 6 (split; [reflexivity|]). exact Hc.
Qed.

Lemma ICMP_ECHO_shape_witness :
  exists pkt,
    ICMP_ECHO 1 2 [x61; x62] = Ok pkt
    /\ ICMP_ECHO_len pkt = 10%nat
    /\ length (header pkt) = 8%nat
    /\ icmp_id pkt = 1 /\ sequence pkt = 2 /\ data pkt = [x61; x62]
    /\ payload pkt = header pkt ++ [x61; x62]
    /\ 0 <= checksum pkt <= 65534.
Proof.
  eexists. split; [reflexivity|].
  apply (ICMP_ECHO_shape 1 2 [x61; x62]). reflexivity.
Defined.

(** The folded sum is fixed by its residue modulo 65535. *)
Lemma folded_sum_unique (s s' k k' total total' : Z) :
  0 < s <= 65535 -> 0 < s' <= 65535 ->
  s = total - 65535 * k -> s' = total' - 65535 * k' ->
  total mod 65535 = total' mod 65535 ->
  s = s'.
Proof.
  intros Hs Hs' E E' Hmod.
  assert (Hd : (s - s') mod 65535 = 0).
  { replace (s - s') with ((total - total') + (k' - k) * 65535) by lia.
    rewrite Z.mod_add by lia.
    rewrite Zminus_mod, Hmod, Z.sub_diag. reflexivity. }
  apply Z.mod_divide in Hd; [|lia]. destruct Hd as [q Hq]. lia.
Qed.

(** X3. The checksum depends on the fields and the payload only through the sum
    of identifier, sequence number and payload words modulo 65535: two packets
    with the same residue carry the same checksum.  In particular the
    checksum does not see the order of the words, so exchanging identifier and
    sequence number leaves it as it is. *)
Theorem ICMP_ECHO_checksum_by_residue (id seq id' seq' : Z) (d d' : bytes)
  (pkt pkt' : ICMP_ECHO_obj) :
  ICMP_ECHO id seq d = Ok pkt ->
  ICMP_ECHO id' seq' d' = Ok pkt' ->
  (id + seq + zsum (be_words d)) mod 65535
  = (id' + seq' + zsum (be_words d')) mod 65535 ->
  checksum pkt = checksum pkt'.
Proof.
  intros E E' Hmod.
  destruct (ICMP_ECHO_ok_inv _ _ _ _ E) as (Hid & Hseq & He).
  destruct (ICMP_ECHO_ok_inv _ _ _ _ E') as (Hid' & Hseq' & He').
  destruct (ICMP_ECHO_even id seq d Hid Hseq He)
    as (s & ? & ? & ? & ? & ? & ? & F & _ & _ & _ & Hs & [k Hk]).
  destruct (ICMP_ECHO_even id' seq' d' Hid' Hseq' He')
    as (s' & ? & ? & ? & ? & ? & ? & F' & _ & _ & _ & Hs' & [k' Hk']).
  assert (Hss : s = s').
  { apply (folded_sum_unique s s' k k'
             (2048 + (id + seq + zsum (be_words d)))
             (2048 + (id' + seq' + zsum (be_words d')))); try assumption; try lia.
    rewrite (Zplus_mod 2048 (id + seq + _)), (Zplus_mod 2048 (id' + seq' + _)), Hmod.
    reflexivity. }
  rewrite <- Hss in F'. rewrite F in E. rewrite F' in E'.
  injection E as <-. injection E' as <-. reflexivity.
Qed.

Lemma ICMP_ECHO_checksum_by_residue_witness :
  exists pkt pkt',
    ICMP_ECHO 7 513 [x01; x02] = Ok pkt
    /\ ICMP_ECHO 513 7 [x01; x02] = Ok pkt'
    /\ checksum pkt = checksum pkt'.
Proof.
  eexists. eexists. split; [reflexivity|]. split; [reflexivity|].
  apply (ICMP_ECHO_checksum_by_residue 7 513 513 7 [x01; x02] [x01; x02]);
    reflexivity.
Defined.

(** X4. Running the constructor's own loop over the packet it built, checksum
    field included, ends with 0xFFFF: recomputing the checksum of a built
    packet gives the field value 0. *)
Theorem ICMP_ECHO_loop_on_built_packet (id seq : Z) (payload_data : bytes)
  (pkt : ICMP_ECHO_obj) :
  ICMP_ECHO id seq payload_data = Ok pkt ->
  checksum_loop (payload pkt) (range_0_n_2 (length (payload pkt))) 0 = Ok 0xFFFF
  /\ Z.land (Z.lnot 0xFFFF) 0xffff = 0.
Proof.
  intros E. destruct (ICMP_ECHO_ok_inv _ _ _ _ E) as (Hid & Hseq & He).
  destruct (ICMP_ECHO_even id seq payload_data Hid Hseq He)
    as (s & c1 & c0 & d1 & d0 & e1 & e0 & F & Vc & Vd & Ve & Hs & [k Hk]).
  assert (Hp : payload pkt = [x08; x00; c1; c0; d1; d0; e1; e0] ++ payload_data)
    by (rewrite F in E; injection E as <-; reflexivity).
  rewrite Hp. split; [|reflexivity].
  rewrite checksum_loop_even_length
    by (rewrite length_app, Nat.even_add, He; reflexivity).
  f_equal. cbn [app be_words fold_left].
  change (byte_val "008") with 8. change (byte_val "000") with 0.
  change (add_word 0 (256 * 8 + 0)) with 2048.
  rewrite Vc, Vd, Ve.
  pose proof (be_words_range payload_data) as Hr.
  destruct (fold_add_word_spec ((65535 - s) :: id :: seq :: be_words payload_data) 2048)
    as (B & [k' Hk'] & Ppos); [repeat constructor; try lia; exact Hr | lia |].
  specialize (Ppos ltac:(lia)). cbn [fold_left] in B, Hk', Ppos.
  cbn [zsum fold_right] in Hk'. unfold zsum in Hk. lia.
Qed.

Lemma ICMP_ECHO_loop_on_built_packet_witness :
  exists pkt,
    ICMP_ECHO 99 3 [xde; xad; xbe; xef] = Ok pkt
    /\ checksum_loop (payload pkt) (range_0_n_2 (length (payload pkt))) 0 = Ok 0xFFFF
    /\ Z.land (Z.lnot 0xFFFF) 0xffff = 0.
Proof.
  eexists. split; [reflexivity|].
  apply (ICMP_ECHO_loop_on_built_packet 99 3 [xde; xad; xbe; xef]). reflexivity.
Defined.

(** ** The probe *)

Lemma recv_trace_early_calls (address : string) (expected : Z) (start_time : Q)
  (early rest : list recv_event) :
  forallb (early_timeout start_time) early = true ->
  recv_trace address expected start_time (early ++ rest)
  = let '(r, msgs, calls) := recv_trace address expected start_time rest in
    (r, msgs, repeat (CRecvFrom 1024) (length early) ++ calls).
Proof.
  induction early as [|ev early IH]; intros Hearly.
  - cbn [app length repeat]. destruct (recv_trace _ _ _ rest) as [[r m] c].
    reflexivity.
  - cbn [forallb] in Hearly. apply andb_true_iff in Hearly.
    destruct Hearly as [Hev Hearly].
    destruct ev as [packet addr | e clock]; [discriminate|].
    destruct e; try discriminate. cbn [early_timeout] in Hev.
    apply negb_true_iff in Hev.
    cbn [app recv_trace is_socket_timeout length repeat]. rewrite Hev, (IH Hearly).
    destruct (recv_trace _ _ _ rest) as [[r m] c]. reflexivity.
Qed.

Lemma send_ping_recv (address : string) (w : World) :
  on_socket (net w address) = None ->
  on_sendto (net w address) = None ->
  send_ping address w
  = let '(r, msgs, calls) :=
      recv_trace address 0 (start_clock (net w address))
        (recv_events (net w address)) in
    (r, extend w msgs
          ([CSocket; CSetTimeout _default_timeout;
            CSendTo (payload default_echo_request) address 0] ++ calls)).
Proof.
  intros H1 H2. rewrite send_ping_trace. unfold probe_trace. rewrite H1, H2.
  destruct (recv_trace _ _ _ _) as [[r m] c]. reflexivity.
Qed.

(** X5. A receive timeout is a negative answer, not an error: when the window
    of [_default_timeout] seconds has passed at a timeout of [recvfrom], the
    probe returns false after printing the timeout line, and what the
    network would have delivered later is not waited for.  Timeouts that come
    before the window has passed cost one more [recvfrom] each. *)
Theorem send_ping_timeout_is_false (address : string) (w : World)
  (early later : list recv_event) (clock : Q) :
  on_socket (net w address) = None ->
  on_sendto (net w address) = None ->
  recv_events (net w address) = early ++ RecvRaises socket_timeout clock :: later ->
  forallb (early_timeout (start_clock (net w address))) early = true ->
  Qle_bool _default_timeout (clock - start_clock (net w address)) = true ->
  send_ping address w
  = (Ok false,
     extend w [MsgTimeout address]
       ([CSocket; CSetTimeout _default_timeout;
         CSendTo (payload default_echo_request) address 0]
        ++ repeat (CRecvFrom 1024) (length early + 1))).
Proof.
  intros H1 H2 Hev Hearly Hlate.
  rewrite send_ping_recv, Hev, recv_trace_early_calls by assumption.
  cbn [recv_trace is_socket_timeout]. rewrite Hlate.
  rewrite repeat_app. reflexivity.
Qed.

Lemma send_ping_timeout_is_false_witness :
  let network := fun _ : string =>
    mkScript None None 10
      [RecvRaises socket_timeout 11; RecvRaises socket_timeout 12;
       echo_reply_from "late"] in
  send_ping "10.0.0.1" (world0 network)
  = (Ok false,
     extend (world0 network) [MsgTimeout "10.0.0.1"]
       ([CSocket; CSetTimeout _default_timeout;
         CSendTo (payload default_echo_request) "10.0.0.1" 0]
        ++ repeat (CRecvFrom 1024) (1 + 1))).
Proof.
  intros network.
  apply (send_ping_timeout_is_false "10.0.0.1" (world0 network)
           [RecvRaises socket_timeout 11] [echo_reply_from "late"] 12);
    reflexivity.
Defined.

(** X6. No retry on a mismatch: when the first datagram that arrives does not
    pass [validate_echo_response], the probe returns false at once, after
    printing the unexpected-response line and the header; datagrams that would
    have followed, matching or not, are never received. *)
Theorem send_ping_mismatch_is_final (address : string) (w : World)
  (early later : list recv_event) (packet : bytes) (addr : string) :
  on_socket (net w address) = None ->
  on_sendto (net w address) = None ->
  recv_events (net w address) = early ++ Datagram packet addr :: later ->
  forallb (early_timeout (start_clock (net w address))) early = true ->
  validate_echo_response (slice packet 20 28) 0 addr = Ok false ->
  send_ping address w
  = (Ok false,
     extend w [MsgUnexpected addr; MsgBytes (slice packet 20 28)]
       ([CSocket; CSetTimeout _default_timeout;
         CSendTo (payload default_echo_request) address 0]
        ++ repeat (CRecvFrom 1024) (length early + 1))).
Proof.
  intros H1 H2 Hev Hearly Hbad.
  rewrite send_ping_recv, Hev, recv_trace_early_calls by assumption.
  cbn [recv_trace]. rewrite Hbad. rewrite repeat_app. reflexivity.
Qed.

Lemma send_ping_mismatch_is_final_witness :
  let request_back :=
    Datagram (repeat x00 20 ++ [x08; x00; xf7; xff; x00; x00; x00; x00]) "self" in
  let network := fun _ : string =>
    mkScript None None 0 [request_back; echo_reply_from "host"] in
  send_ping "10.0.0.1" (world0 network)
  = (Ok false,
     extend (world0 network)
       [MsgUnexpected "self"; MsgBytes [x08; x00; xf7; xff; x00; x00; x00; x00]]
       ([CSocket; CSetTimeout _default_timeout;
         CSendTo (payload default_echo_request) "10.0.0.1" 0]
        ++ repeat (CRecvFrom 1024) (0 + 1))).
Proof.
  intros request_back network.
  apply (send_ping_mismatch_is_final "10.0.0.1" (world0 network) []
           [echo_reply_from "host"]
           (repeat x00 20 ++ [x08; x00; xf7; xff; x00; x00; x00; x00]) "self");
    reflexivity.
Defined.

Lemma struct_unpack_wrong_length (buf : bytes) :
  length buf <> 8%nat -> struct_unpack buf = Raise struct_error.
Proof.
  intros H.
  destruct buf as [|b0 [|b1 [|b2 [|b3 [|b4 [|b5 [|b6 [|b7 [|]]]]]]]]];
    try reflexivity.
  exfalso. apply H. reflexivity.
Qed.

Lemma slice_length {A} (l : list A) (lo hi : nat) :
  length (slice l lo hi) = Nat.min (hi - lo) (length l - lo).
Proof.
  unfold slice. rewrite length_firstn, length_skipn. reflexivity.
Qed.

(** X7. A datagram shorter than 28 bytes is not a "no": [packet[20:28]] then has
    fewer than 8 bytes, [struct.unpack] raises [struct.error], and the probe
    lets it through. *)
Theorem send_ping_short_datagram_raises (address : string) (w : World)
  (early later : list recv_event) (packet : bytes) (addr : string) :
  on_socket (net w address) = None ->
  on_sendto (net w address) = None ->
  recv_events (net w address) = early ++ Datagram packet addr :: later ->
  forallb (early_timeout (start_clock (net w address))) early = true ->
  (length packet < 28)%nat ->
  fst (send_ping address w) = Raise struct_error
  /\ stdout (snd (send_ping address w)) = stdout w.
Proof.
  intros H1 H2 Hev Hearly Hshort.
  rewrite send_ping_recv, Hev, recv_trace_early_calls by assumption.
  cbn [recv_trace]. unfold validate_echo_response.
  rewrite struct_unpack_wrong_length by (rewrite slice_length; lia).
  cbn [rbind fst snd stdout extend]. rewrite app_nil_r. auto.
Qed.

Lemma send_ping_short_datagram_raises_witness :
  let network := fun _ : string =>
    mkScript None None 0 [Datagram (repeat x00 27) "host"] in
  fst (send_ping "10.0.0.1" (world0 network)) = Raise struct_error
  /\ stdout (snd (send_ping "10.0.0.1" (world0 network))) = [].
Proof.
  intros network.
  apply (send_ping_short_datagram_raises "10.0.0.1" (world0 network) [] []
           (repeat x00 27) "host"); try reflexivity.
  cbn. lia.
Defined.

(** X8. What a probe touches, whatever the network does: it opens one socket,
    passes at most one datagram to [sendto] (the default request, to the
    probed address), prints no verdict on a subnet, and leaves the write
    queue, the output file and the global [timeout] as they were. *)
Theorem send_ping_frame (address : string) (w : World) :
  exists msgs calls,
    send_ping address w = (probe_outcome (net w) address, extend w msgs calls)
    /\ no_verdict msgs
    /\ sockets_opened calls = 1%nat
    /\ (sent_to calls = [] \/ sent_to calls = [address])
    /\ (packets_sent calls = []
        \/ packets_sent calls = [payload default_echo_request])
    /\ writer_queue (snd (send_ping address w)) = writer_queue w
    /\ out_file (snd (send_ping address w)) = out_file w
    /\ timeout (snd (send_ping address w)) = timeout w.
Proof.
  pose proof (send_ping_outcome address w) as Hout.
  rewrite send_ping_trace in Hout |- *.
  destruct (probe_trace (net w address) address) as [[r m] c] eqn:T.
  cbn [fst] in Hout. subst r.
  destruct (probe_trace_props _ _ _ _ _ T) as (Hm & Ho & _).
  exists m, c. split; [reflexivity|]. split; [exact Hm|]. split; [exact Ho|].
  cbn [snd writer_queue out_file timeout extend].
  assert (Hs : (sent_to c = [] /\ packets_sent c = [])
               \/ (sent_to c = [address]
                   /\ packets_sent c = [payload default_echo_request])).
  { unfold probe_trace in T. destruct (on_socket (net w address)).
    - injection T as _ _ <-. left. auto.
    - destruct (on_sendto (net w address)).
      + injection T as _ _ <-. right. auto.
      + destruct (recv_trace _ _ _ _) as [[r' m'] c'] eqn:R.
        apply recv_trace_props in R. destruct R as (_ & Hs & _ & Hp & _).
        injection T as _ _ <-. right.
        cbn [app sent_to packets_sent]. rewrite Hs, Hp. auto. }
  destruct Hs as [[-> ->]|[-> ->]]; auto 10.
Qed.

(** ** The scan of one subnet *)

Lemma probe_trace_sent (script : sock_script) (address : string) r msgs calls :
  probe_trace script address = (r, msgs, calls) ->
  sent_to calls = [] \/ sent_to calls = [address].
Proof.
  unfold probe_trace. intros T. destruct (on_socket script).
  - injection T as _ _ <-. left. reflexivity.
  - destruct (on_sendto script).
    + injection T as _ _ <-. right. reflexivity.
    + destruct (recv_trace _ _ _ _) as [[r' m'] c'] eqn:R.
      apply recv_trace_props in R. destruct R as (_ & Hs & _).
      injection T as _ _ <-. right. cbn [app sent_to]. rewrite Hs. reflexivity.
Qed.

Lemma world_after_nil (w : World) : world_after w [] [] [] = w.
Proof. destruct w. unfold world_after. cbn. rewrite !app_nil_r. reflexivity. Qed.

Lemma world_after_extend (w : World) m c lines msgs calls :
  world_after (extend w m c) lines msgs calls
  = world_after w lines (m ++ msgs) (c ++ calls).
Proof. unfold world_after, extend. cbn. rewrite <- !app_assoc. reflexivity. Qed.

Lemma extend_world_after (w : World) m c : extend w m c = world_after w [] m c.
Proof. unfold world_after, extend. rewrite app_nil_r. reflexivity. Qed.

(** The loop of [subnet_queue] against [scan_verdict]: what it returns, what
    it enqueues and prints, and which probes it makes. *)
Lemma scan_loop_spec (subnet : string) (suffix_list : list string) :
  forall (remaining : list string) (w : World),
  exists msgs calls,
    no_verdict msgs
    /\ (sockets_opened calls <= length remaining)%nat
    /\ (exists rest, map (candidate subnet) remaining = sent_to calls ++ rest)
    /\ scan_loop subnet suffix_list remaining w
       = match scan_verdict (net w) subnet remaining with
         | Ok true =>
             (Ok tt,
              world_after w [(subnet ++ "/24" ++ String "010" "")%string]
                (msgs ++ [MsgLive subnet]) calls)
         | Ok false => (Ok tt, world_after w [] msgs calls)
         | Raise e => (Raise e, world_after w [] msgs calls)
         end.
Proof.
  induction remaining as [|x remaining IH]; intros w.
  - exists [], []. cbn [scan_verdict scan_loop ret]. rewrite world_after_nil.
    repeat split; cbn; try lia. exists []. reflexivity.
  - cbn [scan_verdict]. cbn [scan_loop]. unfold bind at 1.
    pose proof (send_ping_outcome (candidate subnet x) w) as Hout.
    rewrite send_ping_trace in Hout |- *.
    destruct (probe_trace _ _) as [[r m] c] eqn:T. cbn [fst] in Hout.
    destruct (probe_trace_props _ _ _ _ _ T) as (Hm & Ho & _ & _ & Hok).
    pose proof (probe_trace_sent _ _ _ _ _ T) as Hsent.
    rewrite <- Hout. destruct r as [[|]|e].
    + destruct (Hok true eq_refl) as (Hs & _).
      exists m, c. split; [exact Hm|]. split; [cbn [length]; lia|].
      split; [exists (map (candidate subnet) remaining); rewrite Hs; reflexivity|].
      unfold bind at 1. rewrite print_extend, extend_extend, app_nil_r.
      reflexivity.
    + destruct (Hok false eq_refl) as (Hs & _).
      rewrite last_suffix_test_false. unfold bind at 1, ret at 1.
      destruct (IH (extend w m c)) as (msgs & calls & Hm' & Ho' & [rest Hr] & E).
      exists (m ++ msgs), (c ++ calls).
      split; [apply no_verdict_app; assumption|].
      split; [rewrite sockets_opened_app; cbn [length]; lia|].
      split.
      { exists rest. cbn [map]. rewrite Hr, sent_to_app, Hs. reflexivity. }
      rewrite E. cbn [net extend].
      destruct (scan_verdict (net w) subnet remaining) as [[|]|e];
        rewrite world_after_extend, <- ?app_assoc; reflexivity.
    + exists m, c. split; [exact Hm|]. split; [cbn [length]; lia|].
      split; [|rewrite extend_world_after; reflexivity].
      destruct Hsent as [Hs|Hs]; rewrite Hs; cbn [map].
      * eexists. reflexivity.
      * exists (map (candidate subnet) remaining). reflexivity.
Qed.

Lemma subnet_queue_spec (subnet : string) (suffix_list : option (list string))
  (w : World) :
  exists msgs calls,
    no_verdict msgs
    /\ (sockets_opened calls <= length (suffixes_of suffix_list))%nat
    /\ (exists rest,
          map (candidate (stripped subnet)) (suffixes_of suffix_list)
          = sent_to calls ++ rest)
    /\ subnet_queue subnet suffix_list w
       = match scan_verdict (net w) (stripped subnet) (suffixes_of suffix_list) with
         | Ok true =>
             (Ok tt,
              world_after w [(stripped subnet ++ "/24" ++ String "010" "")%string]
                (MsgScanning subnet :: msgs ++ [MsgLive (stripped subnet)]) calls)
         | Ok false => (Ok tt, world_after w [] (MsgScanning subnet :: msgs) calls)
         | Raise e =>
             (Raise (if is_KeyboardInterrupt e then SystemExit 1 else e),
              world_after w [] (MsgScanning subnet :: msgs) calls)
         end.
Proof.
  assert (U : subnet_queue subnet suffix_list w
              = try_except (scan_loop (stripped subnet) (suffixes_of suffix_list)
                              (suffixes_of suffix_list))
                  is_KeyboardInterrupt (raise (SystemExit 1))
                  (extend w [MsgScanning subnet] [])).
  { unfold subnet_queue. unfold bind at 1. rewrite print_extend. reflexivity. }
  destruct (scan_loop_spec (stripped subnet) (suffixes_of suffix_list)
              (suffixes_of suffix_list) (extend w [MsgScanning subnet] []))
    as (msgs & calls & Hm & Ho & Hr & E).
  exists msgs, calls. split; [exact Hm|]. split; [exact Ho|]. split; [exact Hr|].
  rewrite U. unfold try_except. rewrite E. cbn [net extend].
  destruct (scan_verdict (net w) (stripped subnet) (suffixes_of suffix_list))
    as [[|]|e]; rewrite world_after_extend; cbn [app]; try reflexivity.
  destruct (is_KeyboardInterrupt e); reflexivity.
Qed.

(** X9. [subnet_queue] against the probes alone.  Its result: normal return
    when no probe raises, SystemExit(1) when the first probe that raises
    raises KeyboardInterrupt, that probe's exception otherwise.  Its effects:
    the scanning line, then lines about single probes, then the "live" line
    exactly when some probe returned true before any raised; the subnet's line
    is put on the write queue in that same case and nothing is put otherwise;
    the output file and the global [timeout] are not touched. *)
Theorem subnet_queue_by_verdict (subnet : string)
  (suffix_list : option (list string)) (w : World) :
  let verdict := scan_verdict (net w) (stripped subnet) (suffixes_of suffix_list) in
  let w' := snd (subnet_queue subnet suffix_list w) in
  fst (subnet_queue subnet suffix_list w)
  = match verdict with
    | Ok _ => Ok tt
    | Raise e => Raise (if is_KeyboardInterrupt e then SystemExit 1 else e)
    end
  /\ (exists msgs,
        no_verdict msgs
        /\ stdout w'
           = stdout w ++ MsgScanning subnet :: msgs
               ++ match verdict with
                  | Ok true => [MsgLive (stripped subnet)]
                  | _ => []
                  end)
  /\ writer_queue w' = writer_queue w ++ live_lines (net w) (subnet, suffixes_of suffix_list)
  /\ out_file w' = out_file w /\ timeout w' = timeout w /\ net w' = net w.
Proof.
  cbv zeta. unfold live_lines. cbn [fst snd].
  destruct (subnet_queue_spec subnet suffix_list w) as (msgs & calls & Hm & _ & _ & E).
  rewrite E.
  destruct (scan_verdict (net w) (stripped subnet) (suffixes_of suffix_list))
    as [[|]|e]; cbn [fst snd stdout writer_queue out_file timeout net world_after];
    (split; [reflexivity|]); (split; [exists msgs; split; [exact Hm|]|]);
    rewrite ?app_nil_r; auto.
Qed.

(** X10. A scan never probes more addresses than the list has suffixes, and the
    addresses that datagrams go to are the candidates of the list taken from
    the first on, in the order of the list. *)
Theorem subnet_queue_probe_bound (subnet : string)
  (suffix_list : option (list string)) (w : World) :
  exists calls rest,
    sock_calls (snd (subnet_queue subnet suffix_list w)) = sock_calls w ++ calls
    /\ (sockets_opened calls <= length (suffixes_of suffix_list))%nat
    /\ map (candidate (stripped subnet)) (suffixes_of suffix_list)
       = sent_to calls ++ rest.
Proof.
  destruct (subnet_queue_spec subnet suffix_list w)
    as (msgs & calls & _ & Ho & [rest Hr] & E).
  exists calls, rest. rewrite E. split; [|auto].
  destruct (scan_verdict _ _ _) as [[|]|e]; reflexivity.
Qed.

(** X11. Without a suffix list the scan walks the 256 suffixes ".0" to ".255":
    when no host answers, 256 sockets are opened and the datagrams go to the
    256 addresses of the subnet, in increasing order of the last octet. *)
Theorem subnet_queue_default_suffixes (subnet : string) (w : World) :
  (forall i, (i < 256)%nat ->
     probe_outcome (net w)
       (candidate (stripped subnet) ("." ++ str_of_nat i)%string) = Ok false) ->
  exists msgs calls,
    subnet_queue subnet None w
    = (Ok tt, world_after w [] (MsgScanning subnet :: msgs) calls)
    /\ sockets_opened calls = 256%nat
    /\ sent_to calls
       = map (fun i => candidate (stripped subnet) ("." ++ str_of_nat i)%string)
           (seq 0 256).
Proof.
  intros Hall.
  assert (Hall' : forall x, In x default_suffix_list ->
            probe_outcome (net w) (candidate (stripped subnet) x) = Ok false).
  { intros x Hx. unfold default_suffix_list in Hx. apply in_map_iff in Hx.
    destruct Hx as (i & <- & Hi). apply in_seq in Hi. apply Hall. lia. }
  destruct (scan_loop_false_prefix (stripped subnet) default_suffix_list
              default_suffix_list [] (extend w [MsgScanning subnet] []) Hall')
    as (m & c & E & _ & Hs & Ho & _).
  rewrite app_nil_r in E. exists m, c.
  change (subnet_queue subnet None w)
    with (subnet_queue subnet (Some default_suffix_list) w).
  rewrite subnet_queue_unfold. unfold try_except. rewrite E.
  rewrite extend_extend, extend_world_after. cbn [scan_loop ret app].
  split; [reflexivity|]. split; [exact Ho|].
  rewrite Hs. unfold default_suffix_list. rewrite map_map. reflexivity.
Qed.

Lemma subnet_queue_default_suffixes_witness :
  exists msgs calls,
    subnet_queue "10.0.0.0/24" None (world0 nobody)
    = (Ok tt, world_after (world0 nobody) [] (MsgScanning "10.0.0.0/24" :: msgs) calls)
    /\ sockets_opened calls = 256%nat
    /\ sent_to calls
       = map (fun i => candidate (stripped "10.0.0.0/24") ("." ++ str_of_nat i)%string)
           (seq 0 256).
Proof.
  apply (subnet_queue_default_suffixes "10.0.0.0/24" (world0 nobody)).
  intros i _. reflexivity.
Defined.

(** ** Addresses and output lines *)

Lemma split_nonempty (sep : ascii) (s : string) : exists h t, split sep s = h :: t.
Proof.
  induction s as [|c s IH]; cbn [split]; [eauto|].
  destruct (Ascii.eqb c sep); [eauto|].
  destruct IH as (h & t & ->). eauto.
Qed.

Lemma split_no_sep (sep : ascii) (s : string) :
  contains sep s = false -> split sep s = [s].
Proof.
  induction s as [|c s IH]; cbn [split contains]; [reflexivity|].
  intros H. apply orb_false_iff in H. destruct H as [Hc Hs].
  rewrite Hc, (IH Hs). reflexivity.
Qed.

Lemma split_last_field (sep : ascii) (a d : string) :
  contains sep d = false ->
  split sep (a ++ String sep d) = split sep a ++ [d].
Proof.
  intros Hd. induction a as [|c a IH]; cbn [String.append split].
  - rewrite Ascii.eqb_refl, (split_no_sep sep d Hd). reflexivity.
  - destruct (Ascii.eqb c sep).
    + rewrite IH. reflexivity.
    + rewrite IH. destruct (split_nonempty sep a) as (h & t & ->). reflexivity.
Qed.

Lemma split_first_field (sep : ascii) (a r : string) :
  contains sep a = false ->
  hd ""%string (split sep (a ++ String sep r)) = a.
Proof.
  induction a as [|c a IH]; cbn [String.append split contains]; intros H.
  - rewrite Ascii.eqb_refl. reflexivity.
  - apply orb_false_iff in H. destruct H as [Hc Ha]. rewrite Hc.
    specialize (IH Ha).
    destruct (split_nonempty sep (a ++ String sep r)) as (h & t & E).
    rewrite E in IH |- *. cbn [hd] in IH |- *. rewrite IH. reflexivity.
Qed.

Lemma contains_app_sep (sep : ascii) (a r : string) :
  contains sep (a ++ String sep r) = true.
Proof.
  induction a as [|c a IH]; cbn [String.append contains].
  - rewrite Ascii.eqb_refl. reflexivity.
  - rewrite IH. apply orb_true_r.
Qed.

(** ['.'.join(s.split('.'))] gives [s] back. *)
Lemma concat_split (sep : ascii) (s : string) :
  String.concat (String sep "") (split sep s) = s.
Proof.
  induction s as [|c s IH]; cbn [split]; [reflexivity|].
  destruct (split_nonempty sep s) as (h & t & E). rewrite E in IH |- *.
  destruct (Ascii.eqb_spec c sep) as [->|Hne].
  - change (String.concat (String sep "") (""%string :: h :: t))
      with ("" ++ String sep "" ++ String.concat (String sep "") (h :: t))%string.
    rewrite IH. reflexivity.
  - destruct t as [|x t].
    + cbn [String.concat] in IH |- *. rewrite IH. reflexivity.
    + change (String.concat (String sep "") (String c h :: x :: t))
        with (String c (String.concat (String sep "") (h :: x :: t))).
      rewrite IH. reflexivity.
Qed.

(** X12. The candidate address is the subnet with its last dot-separated field
    replaced by the suffix: for "a.b.c.d" and ".7" it is "a.b.c.7".  A subnet
    string without any dot has no prefix to keep: the candidate is then the
    suffix alone. *)
Theorem candidate_replaces_last_field (prefix last suffix : string) :
  contains "." last = false ->
  candidate (prefix ++ String "." last) suffix = (prefix ++ suffix)%string
  /\ candidate last suffix = suffix.
Proof.
  intros Hlast. unfold candidate. split.
  - rewrite (split_last_field "." prefix last Hlast), removelast_last.
    rewrite (concat_split "." prefix). reflexivity.
  - rewrite (split_no_sep "." last Hlast). reflexivity.
Qed.

Lemma candidate_replaces_last_field_witness :
  candidate ("192.168.1" ++ String "." "0") ".254" = ("192.168.1" ++ ".254")%string
  /\ candidate "0" ".254" = ".254"%string.
Proof.
  apply (candidate_replaces_last_field "192.168.1" "0" ".254"). reflexivity.
Defined.

(** X13. The line that goes to the output for a live subnet.  A subnet given as
    "base/len" is cut at its first "/" and reported as "base/24", whatever
    [len] was; a subnet without "/" is reported as "subnet/24".  So a subnet
    written "base/24" comes out as it went in, followed by a newline. *)
Theorem live_line_format (base len : string) (hosts : list string)
  (network : string -> sock_script) :
  contains "/" base = false ->
  scan_verdict network base hosts = Ok true ->
  stripped (base ++ String "/" len) = base
  /\ stripped base = base
  /\ live_lines network ((base ++ String "/" len)%string, hosts)
     = [(base ++ "/24" ++ String "010" "")%string]
  /\ live_lines network (base, hosts) = [(base ++ "/24" ++ String "010" "")%string].
Proof.
  intros Hbase Hlive.
  assert (S1 : stripped (base ++ String "/" len) = base).
  { unfold stripped. rewrite contains_app_sep. apply split_first_field, Hbase. }
  assert (S2 : stripped base = base) by (unfold stripped; rewrite Hbase; reflexivity).
  unfold live_lines. cbn [fst snd]. rewrite S1, S2, Hlive. auto.
Qed.

Lemma live_line_format_witness :
  stripped ("10.0.0.0" ++ String "/" "24") = "10.0.0.0"%string
  /\ stripped "10.0.0.0" = "10.0.0.0"%string
  /\ live_lines only_host_2 (("10.0.0.0" ++ String "/" "24")%string, [".1"; ".2"]%string)
     = [("10.0.0.0" ++ "/24" ++ String "010" "")%string]
  /\ live_lines only_host_2 ("10.0.0.0"%string, [".1"; ".2"]%string)
     = [("10.0.0.0" ++ "/24" ++ String "010" "")%string].
Proof.
  apply (live_line_format "10.0.0.0" "24" [".1"; ".2"]%string only_host_2);
    reflexivity.
Defined.

(** ** main *)

Lemma world_after_after (w : World) l1 m1 c1 l2 m2 c2 :
  world_after (world_after w l1 m1 c1) l2 m2 c2
  = world_after w (l1 ++ l2) (m1 ++ m2) (c1 ++ c2).
Proof. unfold world_after. cbn. rewrite <- !app_assoc. reflexivity. Qed.

Lemma subnet_queue_lines (subnet : string) (hosts : list string) (w : World) :
  exists r msgs calls,
    subnet_queue subnet (Some hosts) w
    = (r, world_after w (live_lines (net w) (subnet, hosts)) msgs calls).
Proof.
  destruct (subnet_queue_spec subnet (Some hosts) w) as (msgs & calls & _ & _ & _ & E).
  unfold live_lines. cbn [fst snd suffixes_of] in E |- *. rewrite E.
  destruct (scan_verdict (net w) (stripped subnet) hosts) as [[|]|e]; eauto.
Qed.

(** The pool puts on the write queue the lines of the live subnets, in the
    order of the list. *)
Lemma executor_map_spec (subnet_list : list (string * list string)) :
  forall (w : World),
  exists msgs calls,
    executor_map subnet_list w
    = (Ok tt, world_after w (flat_map (live_lines (net w)) subnet_list) msgs calls).
Proof.
  induction subnet_list as [|[subnet hosts] rest IH]; intros w.
  - exists [], []. cbn [executor_map ret flat_map]. rewrite world_after_nil.
    reflexivity.
  - cbn [executor_map flat_map].
    destruct (subnet_queue_lines subnet hosts w) as (r & m1 & c1 & E1). rewrite E1.
    destruct (IH (world_after w (live_lines (net w) (subnet, hosts)) m1 c1))
      as (m2 & c2 & E2).
    rewrite E2, world_after_after. cbn [net world_after]. eauto.
Qed.

Lemma main_valid_unfold (a : args) (subnet_list : list (string * list string))
  (w : World) :
  1 <= args_timeout a -> 1 <= args_threads a <= _max_threads ->
  main a subnet_list w
  = (set_timeout (inject_Z (args_timeout a)) ;;
     (if Z.min (args_threads a) (Z.of_nat (length subnet_list)) <=? 0
      then raise ValueError else ret tt) ;;
     executor_map subnet_list ;;
     writer_queue_join ;;
     print MsgFinished)%M w.
Proof.
  intros Ht Hth. unfold main.
  replace (args_timeout a <? 1) with false by (symmetry; apply Z.ltb_ge; lia).
  replace (args_threads a <? 1) with false by (symmetry; apply Z.ltb_ge; lia).
  replace (args_threads a >? _max_threads) with false
    by (symmetry; rewrite Z.gtb_ltb; apply Z.ltb_ge; lia).
  reflexivity.
Qed.

Lemma run_valid_spec (a : args) (subnet_list : list (string * list string))
  (w : World) :
  1 <= args_timeout a -> 1 <= args_threads a <= _max_threads ->
  subnet_list <> [] ->
  exists msgs calls,
    run a subnet_list w
    = (0, mkWorld (net w) (inject_Z (args_timeout a)) []
            (out_file w ++ writer_queue w ++ flat_map (live_lines (net w)) subnet_list)
            (stdout w ++ msgs ++ [MsgFinished]) (sock_calls w ++ calls)).
Proof.
  intros Ht Hth Hne. unfold run. rewrite main_valid_unfold by assumption.
  replace (Z.min (args_threads a) (Z.of_nat (length subnet_list)) <=? 0) with false.
  2:{ symmetry. apply Z.leb_gt. destruct subnet_list; [congruence|].
      cbn [length]. lia. }
  unfold bind at 1. unfold set_timeout at 1.
  unfold bind at 1, ret at 1. unfold bind at 1.
  set (w1 := mkWorld _ _ _ _ _ _).
  destruct (executor_map_spec subnet_list w1) as (msgs & calls & E). rewrite E.
  unfold bind at 1, writer_queue_join at 1. rewrite print_extend.
  exists msgs, calls. subst w1. unfold extend, world_after. cbn.
  rewrite <- !app_assoc, app_nil_r. reflexivity.
Qed.

(** X14. A run with valid arguments and one worker in the pool
    ([min(threads, len(subnet_list)) = 1]) ends with status 0, an empty write
    queue, the asked timeout in the global [timeout], and an output file that
    has gained what was still queued and then one line for each subnet with a
    live host, in the order of the list. Subnets without a live host, and
    subnets whose scan raised, add nothing. *)
Theorem run_writes_live_subnets (a : args)
  (subnet_list : list (string * list string)) (w : World) :
  1 <= args_timeout a -> 1 <= args_threads a <= _max_threads ->
  Z.min (args_threads a) (Z.of_nat (length subnet_list)) = 1 ->
  fst (run a subnet_list w) = 0
  /\ out_file (snd (run a subnet_list w))
     = out_file w ++ writer_queue w ++ flat_map (live_lines (net w)) subnet_list
  /\ writer_queue (snd (run a subnet_list w)) = []
  /\ timeout (snd (run a subnet_list w)) = inject_Z (args_timeout a).
Proof.
  intros Ht Hth Hone.
  assert (Hne : subnet_list <> []).
  { intros ->. cbn [length] in Hone. lia. }
  destruct (run_valid_spec a subnet_list w Ht Hth Hne) as (msgs & calls & E).
  rewrite E. cbn [fst snd out_file writer_queue timeout]. auto.
Qed.

(** The end-to-end example: one target 192.168.1.0/24 with suffixes ".1" and
    ".5", the first host silent and the second answering. *)
Lemma run_writes_live_subnets_witness :
  fst (run (mkArgs 2 1) [("192.168.1.0/24", [".1"; ".5"])]%string (world0 only_host_5)) = 0
  /\ out_file (snd (run (mkArgs 2 1) [("192.168.1.0/24", [".1"; ".5"])]%string
                      (world0 only_host_5)))
     = [String.append "192.168.1.0/24" (String "010" "")]
  /\ writer_queue (snd (run (mkArgs 2 1) [("192.168.1.0/24", [".1"; ".5"])]%string
                          (world0 only_host_5))) = []
  /\ timeout (snd (run (mkArgs 2 1) [("192.168.1.0/24", [".1"; ".5"])]%string
                     (world0 only_host_5))) = inject_Z 2.
Proof.
  apply (run_writes_live_subnets (mkArgs 2 1)
           [("192.168.1.0/24", [".1"; ".5"])]%string (world0 only_host_5)).
  - cbn. lia.
  - cbn. unfold _max_threads. lia.
  - reflexivity.
Defined.

(** X15. Arguments out of range end the run before anything is done: the exit
    status is 1, one error line is printed (for the first test that fails, in
    the order timeout, threads too low, threads too high), no socket is
    opened, nothing is enqueued or written, and the global [timeout] keeps its
    value. *)
Theorem main_rejects_bad_arguments (a : args)
  (subnet_list : list (string * list string)) (w : World) :
  args_timeout a < 1 \/ args_threads a < 1 \/ _max_threads < args_threads a ->
  run a subnet_list w
  = (1, extend w
          [if args_timeout a <? 1 then MsgBadTimeout
           else if args_threads a <? 1 then MsgBadThreads
           else MsgTooManyThreads] []).
Proof.
  intros H. unfold run, main.
  destruct (args_timeout a <? 1) eqn:E1.
  { unfold bind at 1. rewrite print_extend. reflexivity. }
  destruct (args_threads a <? 1) eqn:E2.
  { unfold bind at 1. rewrite print_extend. reflexivity. }
  assert (E3 : (args_threads a >? _max_threads) = true).
  { apply Z.ltb_ge in E1. apply Z.ltb_ge in E2.
    rewrite Z.gtb_ltb. apply Z.ltb_lt. lia. }
  rewrite E3. unfold bind at 1. rewrite print_extend. reflexivity.
Qed.

Lemma main_rejects_bad_arguments_witness :
  run (mkArgs 2 5) [("10.0.0.0/24", [".1"])]%string (world0 only_host_2)
  = (1, extend (world0 only_host_2) [MsgTooManyThreads] []).
Proof.
  apply (main_rejects_bad_arguments (mkArgs 2 5)
           [("10.0.0.0/24", [".1"])]%string (world0 only_host_2)).
  right. right. unfold _max_threads. cbn. lia.
Defined.

(** X16. An input that yields no subnet, with valid arguments: the pool is asked
    for [min(threads, 0) = 0] workers, [ThreadPoolExecutor] raises
    ValueError, and the run ends with status 1 without printing its closing
    line; the global [timeout] was already set. *)
Theorem main_empty_subnet_list (a : args) (w : World) :
  1 <= args_timeout a -> 1 <= args_threads a <= _max_threads ->
  main a [] w = (Raise ValueError, snd (set_timeout (inject_Z (args_timeout a)) w))
  /\ fst (run a [] w) = 1
  /\ stdout (snd (run a [] w)) = stdout w.
Proof.
  intros Ht Hth. unfold run. rewrite main_valid_unfold by assumption.
  cbn [length]. replace (Z.min (args_threads a) (Z.of_nat 0) <=? 0) with true
    by (symmetry; apply Z.leb_le; lia).
  unfold bind at 1. unfold set_timeout at 1. unfold bind at 1, raise at 1.
  cbn. auto.
Qed.

Lemma main_empty_subnet_list_witness :
  main (mkArgs 3 4) [] (world0 nobody)
  = (Raise ValueError, snd (set_timeout (inject_Z 3) (world0 nobody)))
  /\ fst (run (mkArgs 3 4) [] (world0 nobody)) = 1
  /\ stdout (snd (run (mkArgs 3 4) [] (world0 nobody))) = [].
Proof.
  apply (main_empty_subnet_list (mkArgs 3 4) (world0 nobody)).
  - cbn. lia.
  - cbn. unfold _max_threads. lia.
Defined.

(** ** The writer thread *)

Ltac fifo_any_writer Hf w :=
  destruct w; cbn in Hf |- *;
  try (rewrite Hf, <- !app_assoc; reflexivity);
  destruct Hf as [lost ->]; exists lost; rewrite <- !app_assoc; reflexivity.

Lemma writer_fifo_step (s s' : Writer.state) :
  writer_fifo s -> Writer.step s s' -> writer_fifo s'.
Proof.
  intros Hf Hstep. unfold writer_fifo in *.
  destruct Hstep; cbn in *.
  - exact Hf.
  - fifo_any_writer Hf w.
  - fifo_any_writer Hf w.
  - exact Hf.
  - exact Hf.
  - rewrite Hf, <- !app_assoc. reflexivity.
  - exists [line]. exact Hf.
  - rewrite Hf, <- !app_assoc. reflexivity.
  - exists []. exact Hf.
  - exact Hf.
  - exact Hf.
  - fifo_any_writer Hf w.
  - fifo_any_writer Hf w.
  - fifo_any_writer Hf w.
  - fifo_any_writer Hf w.
  - exact Hf.
Qed.

Lemma writer_fifo_reachable (s : Writer.state) : Writer.reachable s -> writer_fifo s.
Proof.
  induction 1 as [|s s' _ IH Hstep].
  - reflexivity.
  - exact (writer_fifo_step s s' IH Hstep).
Qed.

(** X17. First in, first out, nothing invented: at every moment the file holds
    a prefix of the lines that were enqueued, in the order in which they were
    enqueued, and what is buffered comes right after it. *)
Theorem writer_file_is_prefix_of_enqueued (s : Writer.state) :
  Writer.reachable s ->
  exists rest, Writer.enqueued s = Writer.disk s ++ Writer.buffer s ++ rest.
Proof.
  intros Hreach. pose proof (writer_fifo_reachable s Hreach) as Hf.
  unfold writer_fifo in Hf. destruct (Writer.wpc s); eauto.
  destruct Hf as [lost ->]. eauto.
Qed.

Lemma writer_file_is_prefix_of_enqueued_witness :
  exists rest,
    Writer.enqueued
      (Writer.mkState ["b"%string] 2 [] [] true (Writer.WWrite "a") Writer.MPool
         ["a"; "b"]%string)
    = [] ++ [] ++ rest.
Proof.
  apply (writer_file_is_prefix_of_enqueued
           (Writer.mkState ["b"%string] 2 [] [] true (Writer.WWrite "a") Writer.MPool
              ["a"; "b"]%string)).
  eapply Writer.reach_step;
    [|apply (Writer.step_get "a" ["b"%string] 2 [] [] true Writer.MPool
               ["a"; "b"]%string)].
  eapply Writer.reach_step;
    [|apply (Writer.step_put ["a"%string] 1 [] [] Writer.WGet ["a"%string] "b")].
  eapply Writer.reach_step;
    [|apply (Writer.step_put [] 0 [] [] Writer.WGet [] "a")].
  eapply Writer.reach_step;
    [|apply (Writer.step_pool_start [] 0 [] [] Writer.WGet [])].
  apply Writer.reach_init.
Defined.

(** X18. When a write or a flush raises, the writer thread is gone for good
    and the item it held is never marked done: [join] cannot return, so the
    run never gets to leave the [with] block normally.  The main thread stays
    in the pool block or at [join] with the handle open, and the only way out
    is a KeyboardInterrupt. *)
Theorem writer_death_blocks_join (s : Writer.state) :
  Writer.reachable s ->
  Writer.wpc s = Writer.WDead ->
  ((Writer.handle_open s = true
    /\ (Writer.mpc s = Writer.MPool \/ Writer.mpc s = Writer.MJoin))
   \/ (Writer.handle_open s = false
       /\ exists workers_running, Writer.mpc s = Writer.MAborted workers_running))
  /\ forall s', Writer.step s s' ->
       Writer.wpc s' = Writer.WDead
       /\ Writer.mpc s' <> Writer.MJoined /\ Writer.mpc s' <> Writer.MClosed.
Proof.
  intros Hreach Hdead.
  assert (G : forall t, Writer.reachable t -> Writer.wpc t = Writer.WDead ->
            (Writer.handle_open t = true
             /\ (Writer.mpc t = Writer.MPool \/ Writer.mpc t = Writer.MJoin))
            \/ (Writer.handle_open t = false
                /\ exists r, Writer.mpc t = Writer.MAborted r)).
  { intros t Ht Hd. destruct (writer_inv_reachable t Ht) as (Hw & Hh & Hj).
    rewrite Hd in Hw. destruct Hw as [n Hn].
    destruct (Writer.handle_open t).
    - left. split; [reflexivity|].
      destruct (Writer.mpc t) eqn:Em; auto;
        try (rewrite Hj in Hn by auto; discriminate Hn).
      destruct Hh as [_ Hh]. discriminate Hh. right. eauto.
    - right. split; [reflexivity|].
      destruct Hh as [Hh _]. destruct (Hh eq_refl) as [Hc|Hab]; [|exact Hab].
      rewrite Hj in Hn by auto. discriminate Hn. }
  split; [exact (G s Hreach Hdead)|].
  intros s' Hstep.
  assert (Hd' : Writer.wpc s' = Writer.WDead).
  { destruct Hstep; cbn in *; try reflexivity; try discriminate Hdead; assumption. }
  split; [exact Hd'|].
  destruct (G s' (Writer.reach_step s s' Hreach Hstep) Hd')
    as [[_ [Hm|Hm]]|[_ [r Hm]]]; rewrite Hm; split; discriminate.
Qed.

Lemma writer_death_blocks_join_witness :
  let s := Writer.mkState [] 1 [] [] true Writer.WDead Writer.MPool ["a"%string] in
  ((Writer.handle_open s = true
    /\ (Writer.mpc s = Writer.MPool \/ Writer.mpc s = Writer.MJoin))
   \/ (Writer.handle_open s = false
       /\ exists workers_running, Writer.mpc s = Writer.MAborted workers_running))
  /\ forall s', Writer.step s s' ->
       Writer.wpc s' = Writer.WDead
       /\ Writer.mpc s' <> Writer.MJoined /\ Writer.mpc s' <> Writer.MClosed.
Proof.
  intros s. apply (writer_death_blocks_join s); [|reflexivity].
  eapply Writer.reach_step;
    [|apply (Writer.step_write_raises "a" [] 1 [] [] true Writer.MPool ["a"%string])].
  eapply Writer.reach_step;
    [|apply (Writer.step_get "a" [] 1 [] [] true Writer.MPool ["a"%string])].
  eapply Writer.reach_step;
    [|apply (Writer.step_put [] 0 [] [] Writer.WGet [] "a")].
  eapply Writer.reach_step;
    [|apply (Writer.step_pool_start [] 0 [] [] Writer.WGet [])].
  apply Writer.reach_init.
Defined.

(** ** Reading the input file *)

Lemma parse_map_app (subnets_24 : string -> result (list string))
  (l1 l2 : list string) :
  parse_map subnets_24 (l1 ++ l2)
  = (let? a := parse_map subnets_24 l1 in
     let? b := parse_map subnets_24 l2 in
     Ok (a ++ b))%res.
Proof.
  induction l1 as [|m l1 IH]; cbn [app parse_map].
  - destruct (parse_map subnets_24 l2); reflexivity.
  - destruct (parse_mapping subnets_24 m) as [added|e]; [|reflexivity].
    cbn [rbind]. rewrite IH.
    destruct (parse_map subnets_24 l1) as [a|e]; [|reflexivity]. cbn [rbind].
    destruct (parse_map subnets_24 l2) as [b|e]; [|reflexivity]. cbn [rbind].
    rewrite app_assoc. reflexivity.
Qed.

(** X19. A line without ";" (a blank line, or a range with the ";" forgotten)
    stops the reading of the input with IndexError: the second field of the
    line is read before anything else is done with it.  Lines after it are
    not looked at, and no subnet list is produced. *)
Theorem parse_map_line_without_semicolon
  (subnets_24 : string -> result (list string))
  (before after : list string) (mapping : string)
  (parsed : list (string * list string)) :
  parse_map subnets_24 before = Ok parsed ->
  contains ";" mapping = false ->
  parse_mapping subnets_24 mapping = Raise (IndexError 1)
  /\ parse_map subnets_24 (before ++ mapping :: after) = Raise (IndexError 1).
Proof.
  intros Hbefore Hno.
  assert (Hm : parse_mapping subnets_24 mapping = Raise (IndexError 1)).
  { unfold parse_mapping. rewrite (split_no_sep ";" mapping Hno). reflexivity. }
  split; [exact Hm|].
  rewrite parse_map_app, Hbefore. cbn [rbind parse_map]. rewrite Hm. reflexivity.
Qed.

Lemma parse_map_line_without_semicolon_witness :
  parse_mapping (fun cidr => Ok [cidr]) "" = Raise (IndexError 1)
  /\ parse_map (fun cidr => Ok [cidr])
       (["10.0.0.0/24;1"%string] ++ ""%string :: ["10.0.1.0/24;"%string])
     = Raise (IndexError 1).
Proof.
  apply (parse_map_line_without_semicolon (fun cidr => Ok [cidr])
           ["10.0.0.0/24;1"%string] ["10.0.1.0/24;"%string] ""
           [("10.0.0.0/24", [".1"])]%string); reflexivity.
Defined.

(** X20. A line "range;hosts": every /24 network of the range gets the same
    suffix list, which is ".0" to ".255" when [hosts] is empty and otherwise
    the comma-separated fields of [hosts], each with a dot put in front, in
    their order.  An exception of [ipaddress] on the range is passed on. *)
Theorem parse_mapping_fields (subnets_24 : string -> result (list string))
  (cidr_range hosts : string) :
  contains ";" cidr_range = false ->
  contains ";" hosts = false ->
  parse_mapping subnets_24 (cidr_range ++ String ";" hosts)
  = match subnets_24 cidr_range with
    | Ok networks =>
        Ok (map (fun ip =>
                   (ip, if String.eqb hosts "" then default_suffix_list
                        else map (fun i => "." ++ i)%string (split "," hosts)))
              networks)
    | Raise e => Raise e
    end.
Proof.
  intros Hc Hh. unfold parse_mapping.
  rewrite (split_last_field ";" cidr_range hosts Hh).
  rewrite (split_no_sep ";" cidr_range Hc). cbn [app getitem_list nth_error rbind].
  destruct (subnets_24 cidr_range); reflexivity.
Qed.

Lemma parse_mapping_fields_witness :
  parse_mapping (fun cidr => Ok [cidr]) ("10.0.0.0/24" ++ String ";" "1,2,254")
  = Ok [("10.0.0.0/24", [".1"; ".2"; ".254"])]%string.
Proof.
  apply (parse_mapping_fields (fun cidr => Ok [cidr]) "10.0.0.0/24" "1,2,254");
    reflexivity.
Defined.

Lemma parse_mapping_hosts_nonempty (subnets_24 : string -> result (list string))
  (mapping : string) (added : list (string * list string)) :
  parse_mapping subnets_24 mapping = Ok added ->
  Forall (fun target => snd target <> []) added.
Proof.
  unfold parse_mapping.
  destruct (getitem_list (split ";" mapping) 0) as [cidr|]; [|discriminate].
  destruct (getitem_list (split ";" mapping) 1) as [hosts|]; [|discriminate].
  cbn [rbind]. destruct (subnets_24 cidr) as [networks|]; [|discriminate].
  cbn [rbind]. intros E. injection E as <-.
  apply Forall_forall. intros target Hin. apply in_map_iff in Hin.
  destruct Hin as (ip & <- & _). cbn [snd].
  destruct (String.eqb hosts ""); [discriminate|].
  destruct (split_nonempty "," hosts) as (h & t & ->). discriminate.
Qed.

(** X21. Whatever the input file holds, a subnet list that was read from it
    gives every subnet at least one suffix to probe. *)
Theorem parse_map_hosts_nonempty (subnets_24 : string -> result (list string))
  (parsing_map : list string) (subnet_list : list (string * list string)) :
  parse_map subnets_24 parsing_map = Ok subnet_list ->
  Forall (fun target => snd target <> []) subnet_list.
Proof.
  revert subnet_list. induction parsing_map as [|m rest IH]; intros subnet_list E.
  - injection E as <-. constructor.
  - cbn [parse_map] in E.
    destruct (parse_mapping subnets_24 m) as [added|] eqn:Em; [|discriminate].
    cbn [rbind] in E.
    destruct (parse_map subnets_24 rest) as [later|]; [|discriminate].
    cbn [rbind] in E. injection E as <-. apply Forall_app. split.
    + exact (parse_mapping_hosts_nonempty subnets_24 m added Em).
    + apply IH. reflexivity.
Qed.

Lemma parse_map_hosts_nonempty_witness :
  Forall (fun target : string * list string => snd target <> [])
    [("10.0.0.0/24", [".1"; ".2"]); ("10.0.1.0/24", ["."; "."])]%string.
Proof.
  apply (parse_map_hosts_nonempty
           (fun cidr => Ok [cidr]) ["10.0.0.0/24;1,2"; "10.0.1.0/24;,"]%string).
  vm_compute. reflexivity.
Defined.

(** ** The name of the output file *)

Lemma str_of_nat_inj (n m : nat) : str_of_nat n = str_of_nat m -> n = m.
Proof.
  unfold str_of_nat. intros H.
  apply (f_equal NilEmpty.uint_of_string) in H.
  rewrite !NilEmpty.usu in H. injection H as H.
  apply (f_equal Nat.of_uint) in H.
  rewrite !DecimalNat.Unsigned.of_to in H. exact H.
Qed.

Lemma string_length_app (a b : string) :
  String.length (a ++ b) = (String.length a + String.length b)%nat.
Proof.
  induction a as [|c a IH]; cbn [String.append String.length]; [reflexivity|].
  rewrite IH. reflexivity.
Qed.

Lemma string_app_inv_head (a b c : string) : (a ++ b = a ++ c)%string -> b = c.
Proof.
  induction a as [|x a IH]; cbn [String.append]; intros H; [exact H|].
  injection H as H. exact (IH H).
Qed.

Lemma string_app_inv_tail (a b c : string) : (a ++ c = b ++ c)%string -> a = b.
Proof.
  revert b. induction a as [|x a IH]; intros b H.
  - destruct b as [|y b]; [reflexivity|].
    apply (f_equal String.length) in H. rewrite !string_length_app in H.
    cbn [String.length] in H. lia.
  - destruct b as [|y b].
    + apply (f_equal String.length) in H. rewrite !string_length_app in H.
      cbn [String.length] in H. lia.
    + cbn [String.append] in H. injection H as -> H. rewrite (IH b H). reflexivity.
Qed.

Lemma numbered_inj (root ext : string) (n m : nat) :
  numbered root n ext = numbered root m ext -> n = m.
Proof.
  unfold numbered. intros H. apply string_app_inv_head in H.
  cbn [String.append] in H. injection H as H.
  apply string_app_inv_tail in H. exact (str_of_nat_inj n m H).
Qed.

Lemma first_free_spec (path_exists : string -> bool) (root ext : string) :
  forall fuel n,
  (exists k, (n <= k < n + fuel)%nat /\ path_exists (numbered root k ext) = false) ->
  exists m,
    first_free path_exists root ext fuel n = Some m
    /\ (n <= m)%nat
    /\ path_exists (numbered root m ext) = false
    /\ forall j, (n <= j < m)%nat -> path_exists (numbered root j ext) = true.
Proof.
  induction fuel as [|fuel IH]; intros n (k & Hk & Hfree); [lia|].
  cbn [first_free]. destruct (path_exists (numbered root n ext)) eqn:En.
  - destruct (IH (S n)) as (m & E & Hm & Hf & Hbelow).
    { exists k. split; [|exact Hfree].
      assert (k <> n) by (intros ->; congruence). lia. }
    exists m. split; [exact E|]. split; [lia|]. split; [exact Hf|].
    intros j Hj. destruct (Nat.eq_dec j n) as [->|Hne]; [exact En|].
    apply Hbelow. lia.
  - exists n. split; [reflexivity|]. split; [lia|]. split; [exact En|].
    intros j Hj. lia.
Qed.

Lemma forallb_false_exists {A} (f : A -> bool) (l : list A) :
  forallb f l = false -> exists x, In x l /\ f x = false.
Proof.
  induction l as [|x l IH]; cbn [forallb]; [discriminate|].
  destruct (f x) eqn:Ex.
  - intros H. destruct (IH H) as (y & Hy & Hf). exists y. split; [right|]; assumption.
  - intros _. exists x. split; [left; reflexivity | exact Ex].
Qed.

Lemma exists_in_In (existing : list string) (path : string) :
  exists_in existing path = true -> In path existing.
Proof.
  unfold exists_in. intros H. apply existsb_exists in H.
  destruct H as (x & Hx & E). apply String.eqb_eq in E. subst x. exact Hx.
Qed.

Lemma NoDup_map_injective {A B} (f : A -> B) (l : list A) :
  (forall x y, f x = f y -> x = y) -> NoDup l -> NoDup (map f l).
Proof.
  intros Hinj Hnd. induction Hnd as [|x l Hx Hnd IH]; cbn [map]; constructor.
  - rewrite in_map_iff. intros (y & E & Hy). apply Hinj in E. subst y. exact (Hx Hy).
  - exact IH.
Qed.

(** Among [length existing + 1] numbered names one is free. *)
Lemma numbered_name_free (existing : list string) (root ext : string) :
  exists k, (1 <= k < 1 + S (length existing))%nat
            /\ exists_in existing (numbered root k ext) = false.
Proof.
  set (cands := map (fun k => numbered root k ext) (seq 1 (S (length existing)))).
  destruct (forallb (exists_in existing) cands) eqn:Hall.
  - exfalso.
    assert (Hnd : NoDup cands).
    { apply NoDup_map_injective; [|apply seq_NoDup].
      intros n m H. exact (numbered_inj root ext n m H). }
    assert (Hincl : incl cands existing).
    { intros p Hp. apply exists_in_In.
      rewrite forallb_forall in Hall. apply Hall, Hp. }
    pose proof (NoDup_incl_length Hnd Hincl) as Hlen.
    subst cands. rewrite length_map, length_seq in Hlen. lia.
  - apply forallb_false_exists in Hall. destruct Hall as (p & Hp & Hf).
    subst cands. apply in_map_iff in Hp. destruct Hp as (k & <- & Hk).
    apply in_seq in Hk. exists k. split; [lia | exact Hf].
Qed.

(** X22. On a file system with finitely many paths the choice of the output name
    always ends, and never with a name that exists: ".txt" is appended unless
    [splitext] already gives that extension; if the name so obtained is free
    it is the one used; otherwise the name used is "root(n)ext" for the
    smallest [n >= 1] for which that is free. *)
Theorem output_file_name_is_free (splitext : string -> string * string)
  (existing : list string) (output : string) :
  let appended := negb (String.eqb (snd (splitext output)) ".txt") in
  let file_name := if appended then (output ++ ".txt")%string else output in
  exists name,
    output_file_name splitext (exists_in existing) (S (length existing)) output
    = Some (appended, exists_in existing file_name, name)
    /\ exists_in existing name = false
    /\ (exists_in existing file_name = false -> name = file_name)
    /\ (exists_in existing file_name = true ->
        exists n,
          (1 <= n)%nat
          /\ name = numbered (fst (splitext file_name)) n (snd (splitext file_name))
          /\ forall j, (1 <= j < n)%nat ->
               exists_in existing
                 (numbered (fst (splitext file_name)) j (snd (splitext file_name)))
               = true).
Proof.
  intros appended file_name. unfold output_file_name.
  fold appended. cbv zeta. fold file_name.
  destruct (exists_in existing file_name) eqn:Ex.
  - destruct (first_free_spec (exists_in existing)
                (fst (splitext file_name)) (snd (splitext file_name))
                (S (length existing)) 1
                (numbered_name_free existing _ _))
      as (n & E & Hn & Hfree & Hbelow).
    rewrite E. eexists. split; [reflexivity|]. split; [exact Hfree|].
    split; [discriminate|]. intros _. exists n. auto.
  - exists file_name. split; [reflexivity|]. split; [exact Ex|].
    split; [reflexivity | discriminate].
Qed.
